(** * Obstacle distances from a RealSense depth image

    A shallow embedding of [scripts/d4xx_to_mavlink.py]: the module-level
    constants of the sector geometry, the sampling routine
    [distances_from_depth_image], the two MAVLink senders that the
    background scheduler calls, the start-up branch that chooses which
    of them is scheduled, and around them the command-line defaults, the
    connection loop, the filter chain, the debug flag and the ways out of
    the main loop.

    Conventions of the embedding.
    - A Python [float] is embedded twice.  Module [Binary64] has the
      sampling routine on IEEE doubles, the kernel's binary64 numbers,
      operation by operation; the value a cell holds and the column a
      sector reads are stated and proved there.  Outside that module a
      [float] is a rational number of [Q] with exact arithmetic; that
      embedding carries the properties in which rounding plays no part
      (which cells are written, the shape of the result, the messages) and
      the bounds that hold on doubles as well.
    - A [numpy.uint16] cell and every Python [int] is a [Z]; the store of a
      float into a [uint16] cell is written out in [to_uint16].
    - A numpy matrix is its shape and its row-major data; the function is
      compiled by numba, which does not check indices, so a read or a write
      outside the array has no result in the model ([None]).
    - Mutable globals and the vehicle link are passed explicitly. *)

From Stdlib Require Import ZArith QArith Qround Lia Bool String.
From Stdlib Require PrimFloat FloatOps SpecFloat FloatAxioms Uint63.
From stdpp Require Import base list.

Local Open Scope Z_scope.

(** ** Numbers *)

(** Coercions the source performs silently when an [int] meets a [float]. *)
Definition float_of_int (z : Z) : Q := inject_Z z.
Definition float_of_nat (n : nat) : Q := inject_Z (Z.of_nat n).

(** [int(x)] on a float: truncation toward zero. *)
Definition int (x : Q) : Z := Z.quot (Qnum x) (Zpos (Qden x)).

(** [a[i] = x] with [x] a float and [a] of dtype [uint16]: the fraction is
    dropped (toward zero) and the integer is reduced to 16 bits. *)
Definition to_uint16 (x : Q) : Z := int x mod 65536.

(** [x < y] on floats, as the test of an [if]. *)
Definition Qltb (x y : Q) : bool := negb (Qle_bool y x).

(** ** Module-level constants (lines 49-62) *)

Definition WIDTH : Z := 640.
Definition HEIGHT : Z := 480.
Definition HFOV : Q := 87.
Definition DEPTH_RANGE : Q * Q := (0.1, 8.0)%Q.

Definition MIN_DEPTH_CM : Z := int (fst DEPTH_RANGE * 100).
Definition MAX_DEPTH_CM : Z := int (snd DEPTH_RANGE * 100).
Definition DISTANCES_ARRAY_LEN : nat := 72.
Definition ANGLE_OFFSET : Q := - (HFOV / 2).
Definition INCREMENT_F : Q := HFOV / float_of_nat DISTANCES_ARRAY_LEN.

(** [np.ones((DISTANCES_ARRAY_LEN,), dtype=np.uint16) * (MAX_DEPTH_CM + 1)] *)
Definition distances_init : list Z :=
  replicate DISTANCES_ARRAY_LEN (1 * (MAX_DEPTH_CM + 1)).

(** ** Depth matrices *)

(** A two-dimensional numpy array of raw depth units: [shape0] rows of
    [shape1] columns, stored row after row. *)
Record ndarray : Type := mk_ndarray {
  shape0 : Z;
  shape1 : Z;
  data : list Z
}.

Definition ndarray_wf (a : ndarray) : Prop :=
  0 <= shape0 a /\ 0 <= shape1 a /\
  Z.of_nat (length (data a)) = shape0 a * shape1 a.

(** [a[r, c]].  Both indices of the source are non-negative, so numba's
    wrap-around of negative indices is never taken; an index outside the
    shape reads outside the buffer. *)
Definition getitem (a : ndarray) (r c : Z) : option Z :=
  if (0 <=? r) && (r <? shape0 a) && (0 <=? c) && (c <? shape1 a)
  then data a !! Z.to_nat (r * shape1 a + c)
  else None.

(** [a[i] = v] on a one-dimensional array. *)
Definition setitem (a : list Z) (i : nat) (v : Z) : option (list Z) :=
  if (i <? length a)%nat then Some (<[i := v]> a) else None.

(** ** [distances_from_depth_image] (lines 359-369) *)

(** Line 365, the indices: row [int(depth_img_height/2)] and column
    [int(i * step)] with [step = depth_img_width / DISTANCES_ARRAY_LEN]. *)
Definition sample_row (depth_mat : ndarray) : Z :=
  int (float_of_int (shape0 depth_mat) / 2).

Definition sample_col (depth_mat : ndarray) (i : nat) : Z :=
  let step := (float_of_int (shape1 depth_mat) / float_of_nat DISTANCES_ARRAY_LEN)%Q in
  int (float_of_nat i * step).

(** Line 365, the read: the one pixel sector [i] looks at. *)
Definition sampled_pixel (depth_mat : ndarray) (i : nat) : option Z :=
  getitem depth_mat (sample_row depth_mat) (sample_col depth_mat i).

(** Lines 365-369 once the pixel is read: the value stored in
    [distances[i]]. *)
Definition sector_value (depth_scale : Q) (raw : Z)
    (min_depth_m max_depth_m : Q) : Z :=
  let dist_m := (float_of_int raw * depth_scale)%Q in
  if Qltb dist_m min_depth_m || Qltb max_depth_m dist_m
  then to_uint16 (max_depth_m * 100 + 1)
  else to_uint16 (dist_m * 100).

(** One iteration of the [for] loop. *)
Definition loop_body (depth_scale : Q) (depth_mat : ndarray)
    (min_depth_m max_depth_m : Q) (distances : list Z) (i : nat)
    : option (list Z) :=
  match sampled_pixel depth_mat i with
  | None => None
  | Some raw =>
      setitem distances i (sector_value depth_scale raw min_depth_m max_depth_m)
  end.

(** [for i in range(...)] over the indices [idxs], threading the array. *)
Fixpoint for_range (depth_scale : Q) (depth_mat : ndarray)
    (min_depth_m max_depth_m : Q) (idxs : list nat) (distances : list Z)
    : option (list Z) :=
  match idxs with
  | [] => Some distances
  | i :: rest =>
      match loop_body depth_scale depth_mat min_depth_m max_depth_m distances i with
      | None => None
      | Some distances' =>
          for_range depth_scale depth_mat min_depth_m max_depth_m rest distances'
      end
  end.

(** The function.  [depth_scale] is the global it reads; the result is the
    array [distances] after the in-place writes. *)
Definition distances_from_depth_image (depth_scale : Q) (depth_mat : ndarray)
    (distances : list Z) (min_depth_m max_depth_m : Q) : option (list Z) :=
  for_range depth_scale depth_mat min_depth_m max_depth_m
    (seq 0 DISTANCES_ARRAY_LEN) distances.

(** ** Shared globals and the vehicle link *)

(** The two globals that the acquisition loop writes and the scheduled
    senders read (lines 62 and 126). *)
Record globals : Type := mk_globals {
  g_distances : list Z;
  g_current_time_us : Z
}.

(** Their values when the module has been loaded and no frame processed. *)
Definition globals_init : globals :=
  {| g_distances := distances_init; g_current_time_us := 0 |}.

(** The messages handed to [vehicle.send_mavlink], fields in the order of
    the encoders' arguments. *)
Inductive mavlink_message : Type :=
| OBSTACLE_DISTANCE (time_usec sensor_type : Z) (distances : list Z)
    (increment min_distance max_distance : Z) (increment_f angle_offset : Q)
    (frame : Z)
| DISTANCE_SENSOR (time_boot_ms min_distance max_distance current_distance
    type id orientation covariance : Z)
| STATUSTEXT (severity : Z) (text : string).

(** [send_obstacle_distance_message] (lines 185-200): one message appended
    to what the link has been given so far. *)
Definition send_obstacle_distance_message (g : globals)
    (link : list mavlink_message) : list mavlink_message :=
  link ++ [OBSTACLE_DISTANCE (g_current_time_us g) 0 (g_distances g) 0
             MIN_DEPTH_CM MAX_DEPTH_CM INCREMENT_F ANGLE_OFFSET 12].

(** [np.mean] of a non-empty slice. *)
Definition mean (l : list Z) : Q :=
  (float_of_int (foldr Z.add 0%Z l) / float_of_nat (length l))%Q.

(** [send_distance_sensor_message] (lines 204-220). *)
Definition send_distance_sensor_message (g : globals)
    (link : list mavlink_message) : list mavlink_message :=
  let curr_dist := int (mean (take (38 - 33) (drop 33 (g_distances g)))) in
  link ++ [DISTANCE_SENSOR 0 MIN_DEPTH_CM MAX_DEPTH_CM curr_dist 0 0 0 0].

(** The callbacks a scheduler job can carry, and one firing of a job. *)
Inductive job : Type :=
| job_obstacle_distance
| job_distance_sensor.

Definition run_job (j : job) (g : globals) (link : list mavlink_message)
    : list mavlink_message :=
  match j with
  | job_obstacle_distance => send_obstacle_distance_message g link
  | job_distance_sensor => send_distance_sensor_message g link
  end.

(** One pass of the main loop's body over a filtered depth matrix (lines
    422 and 435): the timestamp is taken, then the distances are
    rewritten in place. *)
Definition main_loop_iteration (depth_scale : Q) (now_us : Z)
    (depth_mat : ndarray) (g : globals) : option globals :=
  match distances_from_depth_image depth_scale depth_mat (g_distances g)
          (fst DEPTH_RANGE) (snd DEPTH_RANGE) with
  | None => None
  | Some d => Some {| g_distances := d; g_current_time_us := now_us |}
  end.

(** ** Start-up (lines 385-405) *)

(** What the script has done that an observer can tell: scheduler, link,
    console, camera pipe, and the exit status once [sys.exit] has run. *)
Record process : Type := mk_process {
  is_vehicle_connected : bool;
  sched_running : bool;
  sched_jobs : list (job * Q);
  link : list mavlink_message;
  console : list string;
  pipe_streaming : bool;
  vehicle_open : bool;
  exit_status : option Z
}.

(** [send_msg_to_gcs] (lines 222-236). *)
Definition send_msg_to_gcs (text_to_be_sent : string) (p : process) : process :=
  if is_vehicle_connected p then
    {| is_vehicle_connected := is_vehicle_connected p;
       sched_running := sched_running p;
       sched_jobs := sched_jobs p;
       link := link p ++ [STATUSTEXT 6 (String.append "D4xx: " text_to_be_sent)];
       console := console p ++ [String.append "INFO: " text_to_be_sent];
       pipe_streaming := pipe_streaming p;
       vehicle_open := vehicle_open p;
       exit_status := exit_status p |}
  else
    {| is_vehicle_connected := is_vehicle_connected p;
       sched_running := sched_running p;
       sched_jobs := sched_jobs p;
       link := link p;
       console := console p ++
         ["INFO: Vehicle not connected. Cannot send text message to Ground Control Station (GCS)"%string];
       pipe_streaming := pipe_streaming p;
       vehicle_open := vehicle_open p;
       exit_status := exit_status p |}.

(** [sched.start()] and [sched.add_job(callback, 'interval', seconds=s)]. *)
Definition sched_start (p : process) : process :=
  {| is_vehicle_connected := is_vehicle_connected p;
     sched_running := true;
     sched_jobs := sched_jobs p;
     link := link p;
     console := console p;
     pipe_streaming := pipe_streaming p;
     vehicle_open := vehicle_open p;
     exit_status := exit_status p |}.

Definition sched_add_job (j : job) (seconds : Q) (p : process) : process :=
  {| is_vehicle_connected := is_vehicle_connected p;
     sched_running := sched_running p;
     sched_jobs := sched_jobs p ++ [(j, seconds)];
     link := link p;
     console := console p;
     pipe_streaming := pipe_streaming p;
     vehicle_open := vehicle_open p;
     exit_status := exit_status p |}.

(** Lines 402-405: [pipe.stop()], [vehicle.close()], the [print], and
    [sys.exit()] with no argument, whose exit status is 0. *)
Definition close_and_exit (p : process) : process :=
  {| is_vehicle_connected := is_vehicle_connected p;
     sched_running := sched_running p;
     sched_jobs := sched_jobs p;
     link := link p;
     console := console p ++
       ["INFO: Realsense pipe and vehicle object closed."%string];
     pipe_streaming := false;
     vehicle_open := false;
     exit_status := Some 0 |}.

(** Lines 392-405. *)
Definition start_publishing (enable_msg_obstacle_distance
    enable_msg_distance_sensor : bool) (obstacle_distance_msg_hz : Q)
    (p : process) : process :=
  let p := sched_start p in
  if enable_msg_obstacle_distance then
    send_msg_to_gcs "Sending obstacle distance messages to FCU"
      (sched_add_job job_obstacle_distance (1 / obstacle_distance_msg_hz) p)
  else if enable_msg_distance_sensor then
    send_msg_to_gcs "Sending distance sensor messages to FCU"
      (sched_add_job job_distance_sensor (1 / obstacle_distance_msg_hz) p)
  else
    close_and_exit
      (send_msg_to_gcs "Nothing to do. Check params to enable something" p).

(** The process when line 392 is reached: the vehicle is connected, the
    camera streams, a scheduler object exists and has not been started. *)
Definition process_connected (sent : list mavlink_message)
    (printed : list string) : process :=
  {| is_vehicle_connected := true;
     sched_running := false;
     sched_jobs := [];
     link := sent;
     console := printed;
     pipe_streaming := true;
     vehicle_open := true;
     exit_status := None |}.

(** ** The filter chain (lines 66-74 and 425-428) *)

(** One row of [filters]: the flag, the name, and the filter object's
    [process], whatever the type of frames is. *)
Definition filter_spec (frame : Type) : Type :=
  (bool * string * (frame -> frame))%type.

(** Lines 425-428: the rows in order, a row applied when its flag is set. *)
Fixpoint apply_filters {frame : Type} (filters : list (filter_spec frame))
    (filtered_frame : frame) : frame :=
  match filters with
  | [] => filtered_frame
  | (enabled, _, process) :: rest =>
      apply_filters rest
        (if enabled then process filtered_frame else filtered_frame)
  end.

Definition filter_enabled {frame : Type} (f : filter_spec frame) : bool :=
  fst (fst f).

(** ** Command-line values and their defaults (lines 81-90 and 142-163) *)

Definition connection_string_default : string := "/dev/ttyUSB0".
Definition connection_baudrate_default : Q := 921600.
Definition obstacle_distance_msg_hz_default : Q := 15.

(** What [parser.parse_args()] returns: an option left out is [None]. *)
Record arguments : Type := mk_arguments {
  args_connect : option string;
  args_baudrate : option Q;
  args_obstacle_distance_msg_hz : option Q
}.

(** The three globals after lines 142-163. *)
Record settings : Type := mk_settings {
  connection_string : string;
  connection_baudrate : Q;
  obstacle_distance_msg_hz : Q
}.

(** [not x]: true on [None], on the empty string and on a zero. *)
Definition not_str (x : option string) : bool :=
  match x with
  | None => true
  | Some s => String.eqb s ""
  end.

Definition not_float (x : option Q) : bool :=
  match x with
  | None => true
  | Some q => Qeq_bool q 0
  end.

Definition use_defaults (args : arguments) : settings :=
  {| connection_string :=
       if not_str (args_connect args) then connection_string_default
       else default connection_string_default (args_connect args);
     connection_baudrate :=
       if not_float (args_baudrate args) then connection_baudrate_default
       else default connection_baudrate_default (args_baudrate args);
     obstacle_distance_msg_hz :=
       if not_float (args_obstacle_distance_msg_hz args)
       then obstacle_distance_msg_hz_default
       else default obstacle_distance_msg_hz_default
              (args_obstacle_distance_msg_hz args) |}.

(** ** Connecting to the vehicle (lines 302-316 and 376-377) *)

(** The globals [vehicle] and [is_vehicle_connected], and the console. *)
Record connection (V : Type) : Type := mk_connection {
  cx_vehicle : option V;
  cx_is_vehicle_connected : bool;
  cx_console : list string
}.
Arguments mk_connection {V} _ _ _.
Arguments cx_vehicle {V} _.
Arguments cx_is_vehicle_connected {V} _.
Arguments cx_console {V} _.

(** [vehicle_connect]: [attempt] is what [connect(...)] does this time, a
    handle returned or ([None]) an exception raised. *)
Definition vehicle_connect {V : Type} (attempt : option V) (c : connection V)
    : connection V * bool :=
  let c1 :=
    match attempt with
    | Some v => mk_connection (Some v) (cx_is_vehicle_connected c) (cx_console c)
    | None =>
        mk_connection (cx_vehicle c) (cx_is_vehicle_connected c)
          (cx_console c ++ ["Connection error! Retrying..."%string])
    end in
  match cx_vehicle c1 with
  | None => (mk_connection (cx_vehicle c1) false (cx_console c1), false)
  | Some _ => (mk_connection (cx_vehicle c1) true (cx_console c1), true)
  end.

(** [while (not vehicle_connect()): pass] over the attempts still to come;
    [None] when they run out with the loop still going. *)
Fixpoint connect_loop {V : Type} (attempts : list (option V))
    (c : connection V) : option (connection V) :=
  match attempts with
  | [] => None
  | attempt :: rest =>
      let (c', ok) := vehicle_connect attempt c in
      if ok then Some c' else connect_loop rest c'
  end.

(** The globals when the script reaches line 376. *)
Definition connection_init (V : Type) : connection V :=
  mk_connection None false [].

(** ** Leaving the main loop (lines 411-480) *)

(** [print(s)]. *)
Definition print_line (s : string) (p : process) : process :=
  {| is_vehicle_connected := is_vehicle_connected p;
     sched_running := sched_running p;
     sched_jobs := sched_jobs p;
     link := link p;
     console := console p ++ [s];
     pipe_streaming := pipe_streaming p;
     vehicle_open := vehicle_open p;
     exit_status := exit_status p |}.

(** What ends the [while True]: the operator's interrupt, an exception of
    class [Exception] (with its text), or any other exception. *)
Inductive loop_exit : Type :=
| exit_KeyboardInterrupt
| exit_Exception (e : string)
| exit_other.

(** The three [except] clauses, then the [finally] block, whose lines are
    those of [close_and_exit]. *)
Definition leave_main_loop (why : loop_exit) (p : process) : process :=
  close_and_exit
    match why with
    | exit_KeyboardInterrupt => send_msg_to_gcs "Closing the script..." p
    | exit_Exception e => print_line e p
    | exit_other => send_msg_to_gcs "ERROR: Depth camera disconnected" p
    end.

(** ** The main loop and the scheduler, one event at a time *)

(** What happens to the shared globals, in the order in which it completes:
    a pass of the loop that got no depth frame (line 418), a pass over a
    filtered depth matrix at clock [now_us], or a firing of a job. *)
Inductive event : Type :=
| ev_no_frame
| ev_frame (now_us : Z) (depth_mat : ndarray)
| ev_tick (j : job).

Definition step (depth_scale : Q) (e : event)
    (s : globals * list mavlink_message)
    : option (globals * list mavlink_message) :=
  match e with
  | ev_no_frame => Some s
  | ev_frame now_us depth_mat =>
      match main_loop_iteration depth_scale now_us depth_mat (fst s) with
      | None => None
      | Some g => Some (g, snd s)
      end
  | ev_tick j => Some (fst s, run_job j (fst s) (snd s))
  end.

Fixpoint run_events (depth_scale : Q) (events : list event)
    (s : globals * list mavlink_message)
    : option (globals * list mavlink_message) :=
  match events with
  | [] => Some s
  | e :: rest =>
      match step depth_scale e s with
      | None => None
      | Some s' => run_events depth_scale rest s'
      end
  end.

(** A frame event carries a matrix with at least one row and one column. *)
Definition event_valid (e : event) : Prop :=
  match e with
  | ev_frame _ depth_mat =>
      ndarray_wf depth_mat /\ 0 < shape0 depth_mat /\ 0 < shape1 depth_mat
  | _ => True
  end.

Definition is_tick (e : event) : bool :=
  match e with
  | ev_tick _ => true
  | _ => false
  end.

(** An array of [DISTANCES_ARRAY_LEN] cells, each between the two
    advertised bounds or the sentinel. *)
Definition distances_ok (d : list Z) : Prop :=
  length d = DISTANCES_ARRAY_LEN /\
  Forall (fun v => MIN_DEPTH_CM <= v <= MAX_DEPTH_CM + 1) d.

Definition message_ok (m : mavlink_message) : Prop :=
  match m with
  | OBSTACLE_DISTANCE _ _ d _ mn mx _ _ _ =>
      distances_ok d /\ mn = MIN_DEPTH_CM /\ mx = MAX_DEPTH_CM
  | DISTANCE_SENSOR _ mn mx current_distance _ _ _ _ =>
      mn <= current_distance <= mx + 1
  | STATUSTEXT _ _ => True
  end.

(** ** The debug flag (lines 108, 121-122, 172-177, 326-327, 437) *)

(** The values [debug_enable] takes: a [bool] at first, an [int] once
    lines 172-177 have run. *)
Inductive pyvalue : Type :=
| py_bool (b : bool)
| py_int (n : Z).

(** [if v:] and [v is True]. *)
Definition truthy (v : pyvalue) : bool :=
  match v with
  | py_bool b => b
  | py_int n => negb (n =? 0)
  end.

Definition is_True (v : pyvalue) : bool :=
  match v with
  | py_bool true => true
  | _ => false
  end.

(** Lines 172-177: [debug_enable] after the [if not debug_enable]. *)
Definition normalise_debug_enable (debug_enable : pyvalue) : pyvalue :=
  if negb (truthy debug_enable) then py_int 0 else py_int 1.

Inductive stream : Type :=
| stream_depth
| stream_color.

(** Lines 325-327: the streams [realsense_connect] enables. *)
Definition enabled_streams (debug_enable : pyvalue) : list stream :=
  stream_depth :: (if is_True debug_enable then [stream_color] else []).

(** Lines 121-122, at load time, and line 437, in the main loop. *)
Definition colorizer_created (debug_enable : pyvalue) : bool :=
  is_True debug_enable.

Definition debug_display (debug_enable : pyvalue) : bool :=
  truthy debug_enable.

(** ** The status texts of the script *)

(** The literals the script passes to [send_msg_to_gcs], in source order. *)
Definition status_texts : list string :=
  ["Set EKF home with default GPS location";
   "Connecting to camera...";
   "Camera connected.";
   "Sending obstacle distance messages to FCU";
   "Sending distance sensor messages to FCU";
   "Nothing to do. Check params to enable something";
   "Closing the script...";
   "ERROR: Depth camera disconnected"]%string.

(** The size of the text field of STATUSTEXT, from the comment of
    line 230. *)
Definition STATUSTEXT_LEN : nat := 50.

(** ** The specification's wording, where it is compared with the code *)

(** [round(x)] as the specification writes it: the nearest integer, a tie
    going to the even neighbour. *)
Definition spec_round (x : Q) : Z :=
  let f := Qfloor x in
  match (x - inject_Z f ?= 1 # 2)%Q with
  | Lt => f
  | Gt => f + 1
  | Eq => if Z.even f then f else f + 1
  end.

(** A frame the specification wants refused: a dimension is zero, or the
    width is below the sector count. *)
Definition spec_invalid_frame (depth_mat : ndarray) : Prop :=
  shape0 depth_mat = 0 \/ shape1 depth_mat = 0 \/
  shape1 depth_mat < Z.of_nat DISTANCES_ARRAY_LEN.

(** The column of sector [i] as the specification writes it,
    [floor(i * (W / N))] over the real numbers. *)
Definition spec_column (depth_mat : ndarray) (i : nat) : Z :=
  Qfloor (float_of_nat i
          * (float_of_int (shape1 depth_mat)
             / float_of_nat DISTANCES_ARRAY_LEN)).

(** ** The same arithmetic on IEEE doubles *)

(** The routine once more, with Python's [float] as the kernel's binary64
    numbers instead of [Q]: every operation of lines 363-369 on floats is
    the primitive operation on doubles, rounding included.  What a cell
    holds and which column a sector reads is stated of this module. *)
Module Binary64.
Import PrimFloat FloatOps SpecFloat.
#[local] Set Warnings "-inexact-float".

Definition float_of_int (z : Z) : float :=
  if z <? 0 then (- of_uint63 (Uint63.of_Z (- z)))%float
  else of_uint63 (Uint63.of_Z z).

(** Truncation toward zero of a finite double (0 on infinities and NaN,
    where the source's conversion is not defined). *)
Definition int (x : float) : Z :=
  match Prim2SF x with
  | S754_finite s m e =>
      let a := if 0 <=? e then Zpos m * 2 ^ e else Zpos m / 2 ^ (- e) in
      if s then - a else a
  | _ => 0
  end.

Definition to_uint16 (x : float) : Z := int x mod 65536.

Definition DEPTH_RANGE : float * float := (0.1, 8.0)%float.
Definition MIN_DEPTH_CM : Z := int (fst DEPTH_RANGE * 100)%float.
Definition MAX_DEPTH_CM : Z := int (snd DEPTH_RANGE * 100)%float.
Definition HFOV : float := 87%float.
Definition ANGLE_OFFSET : float := (- (HFOV / 2))%float.
Definition INCREMENT_F : float :=
  (HFOV / float_of_int (Z.of_nat DISTANCES_ARRAY_LEN))%float.

(** The right edge of the last sector, and half the field of view. *)
Definition span_end : float :=
  (ANGLE_OFFSET
   + float_of_int (Z.of_nat DISTANCES_ARRAY_LEN) * INCREMENT_F)%float.
Definition half_view : float := 43.5%float.

Definition sample_row (depth_mat : ndarray) : Z :=
  int (float_of_int (shape0 depth_mat) / 2)%float.

Definition sample_col (depth_mat : ndarray) (i : nat) : Z :=
  let step :=
    (float_of_int (shape1 depth_mat)
     / float_of_int (Z.of_nat DISTANCES_ARRAY_LEN))%float in
  int (float_of_int (Z.of_nat i) * step)%float.

Definition sector_value (depth_scale : float) (raw : Z)
    (min_depth_m max_depth_m : float) : Z :=
  let dist_m := (float_of_int raw * depth_scale)%float in
  if (dist_m <? min_depth_m)%float || (max_depth_m <? dist_m)%float
  then to_uint16 (max_depth_m * 100 + 1)%float
  else to_uint16 (dist_m * 100)%float.

Fixpoint for_range (depth_scale : float) (depth_mat : ndarray)
    (min_depth_m max_depth_m : float) (idxs : list nat) (distances : list Z)
    : option (list Z) :=
  match idxs with
  | [] => Some distances
  | i :: rest =>
      match getitem depth_mat (sample_row depth_mat) (sample_col depth_mat i) with
      | None => None
      | Some raw =>
          match setitem distances i
                  (sector_value depth_scale raw min_depth_m max_depth_m) with
          | None => None
          | Some distances' =>
              for_range depth_scale depth_mat min_depth_m max_depth_m rest distances'
          end
      end
  end.

Definition distances_from_depth_image (depth_scale : float)
    (depth_mat : ndarray) (distances : list Z)
    (min_depth_m max_depth_m : float) : option (list Z) :=
  for_range depth_scale depth_mat min_depth_m max_depth_m
    (seq 0 DISTANCES_ARRAY_LEN) distances.

(** The depth unit of a D4xx camera, 0.001 m: as a double, and as the
    single-precision value the driver reports, widened to a double. *)
Definition depth_unit_double : float := 0.001%float.
Definition depth_unit_single : float := 0.0010000000474974513%float.

(** Every [uint16] raw value meets [ok] after conversion. *)
Definition all_raw (depth_scale : float) (ok : Z -> Z -> bool) : bool :=
  fst (Z.iter 65536
         (fun st : bool * Z =>
            let r := snd st in
            (fst st
             && ok r (sector_value depth_scale r (fst DEPTH_RANGE) (snd DEPTH_RANGE)),
             r + 1))
         (true, 0)).
(** ** The parts of lines 365-369, named *)

(** Line 365: [dist_m], the raw value times the depth scale. *)
Definition dist_m (depth_scale : float) (raw : Z) : float :=
  (float_of_int raw * depth_scale)%float.

(** Line 366: the test that sends a pixel to the sentinel. *)
Definition out_of_range (dist_m min_depth_m max_depth_m : float) : bool :=
  (dist_m <? min_depth_m)%float || (max_depth_m <? dist_m)%float.

(** A distance within the range, both ends included. *)
Definition within (dist_m min_depth_m max_depth_m : float) : bool :=
  (min_depth_m <=? dist_m)%float && (dist_m <=? max_depth_m)%float.

(** Line 369: [dist_m * 100], before the store. *)
Definition centimetres (dist_m : float) : float := (dist_m * 100)%float.

(** Line 365, the column before [int]: [i * step] as a double. *)
Definition column (depth_mat : ndarray) (i : nat) : float :=
  (float_of_int (Z.of_nat i)
   * (float_of_int (shape1 depth_mat)
      / float_of_int (Z.of_nat DISTANCES_ARRAY_LEN)))%float.

(** Line 365, the pixel of sector [i]. *)
Definition sampled_pixel (depth_mat : ndarray) (i : nat) : option Z :=
  getitem depth_mat (sample_row depth_mat) (sample_col depth_mat i).

(** A double that is a number: zero or finite, no infinity and no NaN. *)
Definition finite (x : float) : bool :=
  match Prim2SF x with
  | S754_zero _ | S754_finite _ _ _ => true
  | _ => false
  end.

(** The exact value of a finite double (0 on infinities and NaN). *)
Definition to_Q (x : float) : Q :=
  match Prim2SF x with
  | S754_finite s m e =>
      let a :=
        if 0 <=? e then inject_Z (Z.pos m * 2 ^ e)
        else (inject_Z (Z.pos m) / inject_Z (2 ^ (- e)))%Q in
      if s then (- a)%Q else a
  | _ => 0%Q
  end.

(** ** Doubles as mantissa and exponent *)

(** A double from [DEPTH_RANGE[0]] to [DEPTH_RANGE[1]], both included, as
    [SpecFloat] sees it: a positive normal number whose exponent and
    mantissa lie between those of 0.1 and 8.0. *)
Definition between (d : float) : Prop :=
  exists (m : positive) (e : Z),
    Prim2SF d = S754_finite false m e /\
    4503599627370496 <= Z.pos m < 9007199254740992 /\
    (-56 < e \/ (e = -56 /\ 7205759403792794 <= Z.pos m)) /\
    (e < -49 \/ (e = -49 /\ Z.pos m <= 4503599627370496)).

(** The order of two positive finite doubles, by exponent then mantissa. *)
Definition lex (e1 : Z) (m1 : positive) (e2 : Z) (m2 : positive)
    : comparison :=
  match (e1 ?= e2) with
  | Eq => (m1 ?= m2)%positive
  | Lt => Lt
  | Gt => Gt
  end.

(** ** Frames whose reads stay inside the matrix *)

(** [ok] holds of every integer from 0 below [n]. *)
Definition for_all_below (n : Z) (ok : Z -> bool) : bool :=
  fst (Z.iter n
         (fun st : bool * Z => (fst st && ok (snd st), snd st + 1))
         (true, 0)).

(** The double of a small integer: positive, normal, and exact. *)
Definition exact_int (z : Z) : bool :=
  match Prim2SF (float_of_int z) with
  | S754_zero false => z =? 0
  | S754_finite false m e =>
      (0 <? z) && (e <? 0) && (Z.pos m =? z * 2 ^ (- e))
      && (4503599627370496 <=? Z.pos m)
  | _ => false
  end.

(** On a frame [w] wide the double [i * step] of every sector lies from
    [floor(i*w/72) - 1] (or 0) up to below [floor(i*w/72) + 1], by the
    comparisons of doubles. *)
Definition columns_ok (w : Z) : bool :=
  forallb
    (fun i : nat =>
       let x := column (mk_ndarray 0 w []) i in
       let f := Z.of_nat i * w / 72 in
       (float_of_int (Z.max 0 (f - 1)) <=? x)%float
       && (x <? float_of_int (f + 1))%float)
    (seq 0 DISTANCES_ARRAY_LEN).

(** On a frame [h] high the row is [h // 2]. *)
Definition row_ok (h : Z) : bool :=
  sample_row (mk_ndarray h 0 []) =? h / 2.

(** The largest side of a frame for which the indices of line 365 have
    been checked on doubles; the depth streams of a D4xx camera are at
    most 1280 by 720. *)
Definition MAX_SIDE : Z := 4096.

(** A frame with at least one row and one column and no side above
    [MAX_SIDE]. *)
Definition camera_frame (depth_mat : ndarray) : Prop :=
  ndarray_wf depth_mat /\
  0 < shape0 depth_mat <= MAX_SIDE /\ 0 < shape1 depth_mat <= MAX_SIDE.
End Binary64.

(** A frame of [h] rows and [w] columns holding [raw] everywhere. *)
Definition constant_frame (h w : nat) (raw : Z) : ndarray :=
  {| shape0 := Z.of_nat h; shape1 := Z.of_nat w;
     data := replicate (h * w) raw |}.

(** One row of 148 pixels: 2000 at column 110, 3000 at column 111 and
    1000 everywhere else. *)
Definition frame_148 : ndarray :=
  {| shape0 := 1; shape1 := 148;
     data := replicate 110 1000 ++ [2000; 3000] ++ replicate 36 1000 |}.

(** * Properties *)

(** ** Arithmetic of the conversions *)

Lemma int_nonneg (x : Q) : (0 <= x)%Q -> int x = Qfloor x.
Proof.
  destruct x as [n d]. unfold Qle, int, Qfloor. simpl. intros Hn.
  apply Z.quot_div_nonneg; lia.
Qed.

Lemma Qltb_true (x y : Q) : Qltb x y = true <-> (x < y)%Q.
Proof.
  unfold Qltb. rewrite negb_true_iff, <- not_true_iff_false, Qle_bool_iff.
  split; [apply Qnot_le_lt | apply Qlt_not_le].
Qed.

Lemma Qltb_false (x y : Q) : Qltb x y = false <-> (y <= x)%Q.
Proof.
  unfold Qltb. rewrite negb_false_iff. apply Qle_bool_iff.
Qed.

Lemma Qfloor_succ (x : Q) : Qfloor (x + 1) = Qfloor x + 1.
Proof.
  destruct x as [n d]. unfold Qfloor, Qplus. simpl.
  rewrite Pos.mul_1_r, Z.mul_1_r.
  apply Z.div_add. lia.
Qed.

Lemma Qfloor_nonneg (x : Q) : (0 <= x)%Q -> 0 <= Qfloor x.
Proof.
  intros H. change 0 with (Qfloor 0). now apply Qfloor_resp_le.
Qed.

Lemma Qfloor_lt_bound (x : Q) (b : Z) : (x < inject_Z b)%Q -> Qfloor x < b.
Proof.
  intros H. rewrite Zlt_Qlt.
  eapply Qle_lt_trans; [apply Qfloor_le | exact H].
Qed.

(** Inside the range of [uint16] the store keeps the integer part. *)
Lemma to_uint16_floor (x : Q) :
  (0 <= x)%Q -> (x < 65536)%Q -> to_uint16 x = Qfloor x.
Proof.
  intros H0 H1. unfold to_uint16. rewrite int_nonneg by exact H0.
  apply Z.mod_small. split; [now apply Qfloor_nonneg |].
  now apply (Qfloor_lt_bound x 65536).
Qed.

Lemma Qmult_100_nonneg (x : Q) : (0 <= x)%Q -> (0 <= x * 100)%Q.
Proof. intros H. apply Qmult_le_0_compat; [exact H | discriminate]. Qed.

Lemma Qmult_100_le (x y : Q) : (x <= y)%Q -> (x * 100 <= y * 100)%Q.
Proof. intros H. apply Qmult_le_compat_r; [exact H | discriminate]. Qed.

(** ** The sampled pixel *)

Lemma sample_row_div (m : ndarray) :
  0 <= shape0 m -> sample_row m = shape0 m / 2.
Proof.
  intros H. unfold sample_row, int, float_of_int. simpl.
  rewrite Z.mul_1_r. apply Z.quot_div_nonneg; lia.
Qed.

Lemma sample_col_div (m : ndarray) (i : nat) :
  0 <= shape1 m -> sample_col m i = (Z.of_nat i * shape1 m) / 72.
Proof.
  intros H. unfold sample_col, int, float_of_int, float_of_nat. simpl.
  rewrite Z.mul_1_r. apply Z.quot_div_nonneg; lia.
Qed.

Lemma sample_row_range (m : ndarray) :
  0 < shape0 m -> 0 <= sample_row m < shape0 m.
Proof.
  intros H. rewrite sample_row_div by lia. split.
  - apply Z.div_pos; lia.
  - apply Z.div_lt_upper_bound; lia.
Qed.

Lemma sample_col_range (m : ndarray) (i : nat) :
  0 < shape1 m -> (i < DISTANCES_ARRAY_LEN)%nat ->
  0 <= sample_col m i < shape1 m.
Proof.
  unfold DISTANCES_ARRAY_LEN. intros H Hi. rewrite sample_col_div by lia. split.
  - apply Z.div_pos; lia.
  - apply Z.div_lt_upper_bound; nia.
Qed.

(** On a frame with at least one row and one column every sector finds
    its pixel inside the matrix. *)
Lemma sampled_pixel_is_Some (m : ndarray) (i : nat) :
  ndarray_wf m -> 0 < shape0 m -> 0 < shape1 m ->
  (i < DISTANCES_ARRAY_LEN)%nat ->
  is_Some (sampled_pixel m i).
Proof.
  intros (_ & _ & Hlen) H0 H1 Hi.
  pose proof (sample_row_range m H0) as Hr.
  pose proof (sample_col_range m i H1 Hi) as Hc.
  unfold sampled_pixel, getitem.
  replace ((0 <=? sample_row m) && (sample_row m <? shape0 m)
           && (0 <=? sample_col m i) && (sample_col m i <? shape1 m))
    with true.
  - apply lookup_lt_is_Some. nia.
  - symmetry. rewrite !andb_true_iff.
    rewrite !Z.leb_le, !Z.ltb_lt. lia.
Qed.

(** ** The loop *)

Lemma setitem_Some (a : list Z) (i : nat) (v : Z) :
  (i < length a)%nat -> setitem a i v = Some (<[i := v]> a).
Proof.
  intros H. unfold setitem.
  destruct (Nat.ltb_spec i (length a)); [reflexivity | lia].
Qed.

(** The loop over [a, a+n): it completes when every pixel it needs is in
    the matrix and every index in the array; it rewrites exactly the cells
    [a .. a+n-1], each from its own pixel, and leaves the length alone. *)
Lemma for_range_seq (depth_scale : Q) (m : ndarray) (mn mx : Q) :
  forall (n a : nat) (d : list Z),
    (a + n <= length d)%nat ->
    (forall i, (a <= i < a + n)%nat -> is_Some (sampled_pixel m i)) ->
    exists out,
      for_range depth_scale m mn mx (seq a n) d = Some out /\
      length out = length d /\
      (forall i, (a <= i < a + n)%nat ->
         exists raw, sampled_pixel m i = Some raw /\
                     out !! i = Some (sector_value depth_scale raw mn mx)) /\
      (forall i, ~ (a <= i < a + n)%nat -> out !! i = d !! i).
Proof.
  induction n as [|n IH]; intros a d Hlen Hpix.
  - exists d. simpl. split; [reflexivity |]. split; [reflexivity |].
    split; [intros i Hi; lia | reflexivity].
  - destruct (Hpix a ltac:(lia)) as [raw Hraw].
    cbn [seq for_range]. unfold loop_body. rewrite Hraw.
    rewrite setitem_Some by lia.
    set (d1 := <[a := sector_value depth_scale raw mn mx]> d).
    assert (Hlen1 : length d1 = length d) by apply length_insert.
    destruct (IH (S a) d1) as (out & Hrun & Hl & Hin & Hout).
    + rewrite Hlen1. lia.
    + intros i Hi. apply Hpix. lia.
    + exists out. split; [exact Hrun |]. split; [congruence |]. split.
      * intros i Hi. destruct (decide (i = a)) as [-> | Hne].
        -- exists raw. split; [exact Hraw |].
           rewrite Hout by lia. unfold d1.
           apply list_lookup_insert_eq. lia.
        -- apply Hin. lia.
      * intros i Hi. rewrite Hout by lia. unfold d1.
        apply list_lookup_insert_ne. lia.
Qed.

(** The function on a frame with at least one row and one column, writing
    into an array of [DISTANCES_ARRAY_LEN] cells: it returns, the array keeps
    its length, and cell [i] holds the conversion of sector [i]'s pixel. *)
Lemma distances_from_depth_image_spec (depth_scale : Q) (m : ndarray)
    (d : list Z) (mn mx : Q) :
  ndarray_wf m -> 0 < shape0 m -> 0 < shape1 m ->
  length d = DISTANCES_ARRAY_LEN ->
  exists out,
    distances_from_depth_image depth_scale m d mn mx = Some out /\
    length out = DISTANCES_ARRAY_LEN /\
    (forall i, (i < DISTANCES_ARRAY_LEN)%nat ->
       exists raw, sampled_pixel m i = Some raw /\
                   out !! i = Some (sector_value depth_scale raw mn mx)).
Proof.
  intros Hwf H0 H1 Hd. unfold distances_from_depth_image.
  destruct (for_range_seq depth_scale m mn mx DISTANCES_ARRAY_LEN 0 d)
    as (out & Hrun & Hl & Hin & _).
  - lia.
  - intros i Hi. apply sampled_pixel_is_Some; [assumption .. | lia].
  - exists out. split; [exact Hrun |]. split; [congruence |].
    intros i Hi. apply Hin. lia.
Qed.

(** ** The conversion of one pixel *)

Lemma sector_value_out_of_range (depth_scale : Q) (raw : Z) (mn mx : Q) :
  (float_of_int raw * depth_scale < mn)%Q \/
  (mx < float_of_int raw * depth_scale)%Q ->
  sector_value depth_scale raw mn mx = to_uint16 (mx * 100 + 1).
Proof.
  intros H. unfold sector_value.
  replace (Qltb (float_of_int raw * depth_scale) mn
           || Qltb mx (float_of_int raw * depth_scale)) with true;
    [reflexivity |].
  symmetry. apply orb_true_iff. now rewrite !Qltb_true.
Qed.

Lemma sector_value_in_range (depth_scale : Q) (raw : Z) (mn mx : Q) :
  (mn <= float_of_int raw * depth_scale)%Q ->
  (float_of_int raw * depth_scale <= mx)%Q ->
  sector_value depth_scale raw mn mx
  = to_uint16 (float_of_int raw * depth_scale * 100).
Proof.
  intros Hlo Hhi. unfold sector_value.
  apply Qltb_false in Hlo. apply Qltb_false in Hhi.
  now rewrite Hlo, Hhi.
Qed.

(** Either the pixel is out of range or it is in range: the two branches
    of line 366 as a case distinction on the distance. *)
Lemma sector_value_cases (depth_scale : Q) (raw : Z) (mn mx : Q) :
  ((float_of_int raw * depth_scale < mn)%Q \/
   (mx < float_of_int raw * depth_scale)%Q) \/
  ((mn <= float_of_int raw * depth_scale)%Q /\
   (float_of_int raw * depth_scale <= mx)%Q).
Proof.
  destruct (Qlt_le_dec (float_of_int raw * depth_scale) mn) as [H | H];
    [left; now left |].
  destruct (Qlt_le_dec mx (float_of_int raw * depth_scale)) as [H' | H'];
    [left; now right |].
  right. now split.
Qed.

(** The sentinel written by line 367 is [int(max_depth_m * 100) + 1] as
    long as it fits the cell. *)
Lemma sentinel_value (mx : Q) :
  (0 <= mx)%Q -> (mx * 100 + 1 < 65536)%Q ->
  to_uint16 (mx * 100 + 1) = int (mx * 100) + 1.
Proof.
  intros H0 H1. pose proof (Qmult_100_nonneg mx H0) as H100.
  rewrite to_uint16_floor; [| | exact H1].
  - rewrite Qfloor_succ. now rewrite int_nonneg.
  - apply Qle_trans with (mx * 100)%Q; [exact H100 |].
    rewrite <- (Qplus_0_r (mx * 100)) at 1.
    apply Qplus_le_r. discriminate.
Qed.

(** The value written by line 369 is the integer part of the distance in
    centimetres, between the integer parts of the two bounds. *)
Lemma in_range_value (depth_scale : Q) (raw : Z) (mn mx : Q) :
  (0 <= mn)%Q -> (mx * 100 + 1 < 65536)%Q ->
  (mn <= float_of_int raw * depth_scale)%Q ->
  (float_of_int raw * depth_scale <= mx)%Q ->
  to_uint16 (float_of_int raw * depth_scale * 100)
  = Qfloor (float_of_int raw * depth_scale * 100) /\
  int (mn * 100)
  <= Qfloor (float_of_int raw * depth_scale * 100)
  <= int (mx * 100).
Proof.
  intros H0 H1 Hlo Hhi.
  set (dist_m := (float_of_int raw * depth_scale)%Q) in *.
  assert (Hd : (0 <= dist_m)%Q) by (eapply Qle_trans; eassumption).
  assert (Hmx : (0 <= mx)%Q) by (eapply Qle_trans; eassumption).
  assert (Hlt : (mx * 100 < 65536)%Q).
  { eapply Qle_lt_trans; [| exact H1].
    rewrite <- (Qplus_0_r (mx * 100)) at 1. apply Qplus_le_r. discriminate. }
  split.
  - apply to_uint16_floor; [now apply Qmult_100_nonneg |].
    eapply Qle_lt_trans; [apply Qmult_100_le; exact Hhi | exact Hlt].
  - rewrite !int_nonneg by now apply Qmult_100_nonneg.
    split; apply Qfloor_resp_le; now apply Qmult_100_le.
Qed.

(** An array whose cells all hold [v]. *)
Lemma all_cells_replicate (out : list Z) (n : nat) (v : Z) :
  length out = n ->
  (forall i, (i < n)%nat -> out !! i = Some v) ->
  out = replicate n v.
Proof.
  intros Hl Hall. apply list_eq. intros i.
  destruct (Nat.lt_ge_cases i n) as [Hi | Hi].
  - rewrite Hall by exact Hi. symmetry. now apply lookup_replicate_2.
  - rewrite (lookup_ge_None_2 out) by lia.
    symmetry. apply lookup_ge_None_2. rewrite length_replicate. lia.
Qed.

(** ** Constant frames *)

Lemma constant_frame_wf (h w : nat) (raw : Z) :
  ndarray_wf (constant_frame h w raw).
Proof.
  unfold ndarray_wf, constant_frame. simpl.
  rewrite length_replicate. lia.
Qed.

Lemma constant_frame_getitem (h w : nat) (raw r c : Z) :
  0 <= r < Z.of_nat h -> 0 <= c < Z.of_nat w ->
  getitem (constant_frame h w raw) r c = Some raw.
Proof.
  intros Hr Hc. unfold getitem, constant_frame. simpl.
  replace ((0 <=? r) && (r <? Z.of_nat h) && (0 <=? c) && (c <? Z.of_nat w))
    with true.
  - apply lookup_replicate_2. nia.
  - symmetry. rewrite !andb_true_iff, !Z.leb_le, !Z.ltb_lt. lia.
Qed.

Lemma constant_frame_sampled_pixel (h w : nat) (raw : Z) (i : nat) :
  (0 < h)%nat -> (0 < w)%nat -> (i < DISTANCES_ARRAY_LEN)%nat ->
  sampled_pixel (constant_frame h w raw) i = Some raw.
Proof.
  intros Hh Hw Hi. unfold sampled_pixel.
  apply constant_frame_getitem.
  - apply (sample_row_range (constant_frame h w raw)). simpl. lia.
  - apply (sample_col_range (constant_frame h w raw)); [simpl; lia | exact Hi].
Qed.

(** On a constant frame every sector receives the conversion of the one
    raw value. *)
Lemma constant_frame_run (depth_scale : Q) (h w : nat) (raw : Z)
    (d : list Z) (mn mx : Q) :
  (0 < h)%nat -> (0 < w)%nat -> length d = DISTANCES_ARRAY_LEN ->
  distances_from_depth_image depth_scale (constant_frame h w raw) d mn mx
  = Some (replicate DISTANCES_ARRAY_LEN (sector_value depth_scale raw mn mx)).
Proof.
  intros Hh Hw Hd.
  destruct (distances_from_depth_image_spec depth_scale
              (constant_frame h w raw) d mn mx)
    as (out & Hrun & Hl & Hcells);
    [apply constant_frame_wf | simpl; lia | simpl; lia | exact Hd |].
  rewrite Hrun. f_equal. apply all_cells_replicate; [exact Hl |].
  intros i Hi. destruct (Hcells i Hi) as (v & Hv & Hout).
  rewrite constant_frame_sampled_pixel in Hv by assumption.
  now inversion Hv; subst.
Qed.

Lemma distances_init_length : length distances_init = DISTANCES_ARRAY_LEN.
Proof. apply length_replicate. Qed.

(** ** Arithmetic of doubles *)

(** The kernel's doubles come with [Prim2SF], which reads a double as a
    sign, a mantissa and an exponent, and with the axioms of [FloatAxioms],
    which give every primitive operation as the operation of [SpecFloat] on
    those readings.  The lemmas of this section go through them. *)

Section Doubles.
Import PrimFloat FloatOps SpecFloat.

(** *** Rounding a mantissa to 53 bits *)

Lemma digits2_bounds (p : positive) :
  2 ^ (Z.pos (SpecFloat.digits2_pos p) - 1) <= Z.pos p
  < 2 ^ Z.pos (SpecFloat.digits2_pos p).
Proof.
  induction p as [p IH | p IH |]; cbn [SpecFloat.digits2_pos].
  - rewrite Pos2Z.inj_succ.
    replace (Z.succ (Z.pos (SpecFloat.digits2_pos p)) - 1)
      with (Z.succ (Z.pos (SpecFloat.digits2_pos p) - 1)) by lia.
    rewrite !Z.pow_succ_r by lia. lia.
  - rewrite Pos2Z.inj_succ.
    replace (Z.succ (Z.pos (SpecFloat.digits2_pos p)) - 1)
      with (Z.succ (Z.pos (SpecFloat.digits2_pos p) - 1)) by lia.
    rewrite !Z.pow_succ_r by lia. lia.
  - simpl. lia.
Qed.

Lemma digits2_unique (p : positive) (a : Z) :
  2 ^ (a - 1) <= Z.pos p < 2 ^ a ->
  Z.pos (SpecFloat.digits2_pos p) = a.
Proof.
  intros [Hlo Hhi]. pose proof (digits2_bounds p) as [Blo Bhi].
  set (d := Z.pos (SpecFloat.digits2_pos p)) in *.
  assert (Hd : 0 < d) by (unfold d; lia).
  assert (Ha : 0 < a).
  { destruct (Z.lt_ge_cases 0 a) as [|Hneg]; [assumption |].
    destruct (Z.eq_dec a 0) as [-> | Hne]; [simpl in Hhi; lia |].
    rewrite (Z.pow_neg_r 2 a) in Hhi by lia. lia. }
  destruct (Z.lt_trichotomy d a) as [Hlt | [Heq | Hgt]]; [| exact Heq |].
  - assert (2 ^ d <= 2 ^ (a - 1)) by (apply Z.pow_le_mono_r; lia). lia.
  - assert (2 ^ a <= 2 ^ (d - 1)) by (apply Z.pow_le_mono_r; lia). lia.
Qed.

Lemma iter_pos_nat {A : Type} (f : A -> A) (p : positive) (x : A) :
  SpecFloat.iter_pos f p x = Nat.iter (Pos.to_nat p) f x.
Proof.
  revert x. induction p as [p IH | p IH |]; intros x; cbn [SpecFloat.iter_pos].
  - rewrite !IH, Pos2Nat.inj_xI, Nat.iter_succ_r.
    replace (2 * Pos.to_nat p)%nat with (Pos.to_nat p + Pos.to_nat p)%nat
      by lia.
    now rewrite Nat.iter_add.
  - rewrite !IH, Pos2Nat.inj_xO.
    replace (2 * Pos.to_nat p)%nat with (Pos.to_nat p + Pos.to_nat p)%nat
      by lia.
    now rewrite Nat.iter_add.
  - reflexivity.
Qed.

Lemma shr_1_spec (mrs : SpecFloat.shr_record) :
  0 <= SpecFloat.shr_m mrs ->
  SpecFloat.shr_m (SpecFloat.shr_1 mrs) = SpecFloat.shr_m mrs / 2 /\
  SpecFloat.shr_r (SpecFloat.shr_1 mrs) = Z.odd (SpecFloat.shr_m mrs) /\
  SpecFloat.shr_s (SpecFloat.shr_1 mrs)
  = SpecFloat.shr_r mrs || SpecFloat.shr_s mrs.
Proof.
  destruct mrs as [m r s].
  cbn [SpecFloat.shr_m SpecFloat.shr_r SpecFloat.shr_s].
  intros Hm. rewrite <- Z.div2_div.
  destruct m as [| p | p]; [| | lia]; [repeat split |].
  destruct p; repeat split.
Qed.

Lemma shr_iter_spec (k : nat) (mrs : SpecFloat.shr_record) :
  0 <= SpecFloat.shr_m mrs ->
  SpecFloat.shr_m (Nat.iter k SpecFloat.shr_1 mrs)
  = SpecFloat.shr_m mrs / 2 ^ Z.of_nat k /\
  (SpecFloat.shr_r mrs = false -> SpecFloat.shr_s mrs = false ->
   SpecFloat.shr_m mrs mod 2 ^ Z.of_nat k = 0 ->
   SpecFloat.shr_r (Nat.iter k SpecFloat.shr_1 mrs) = false /\
   SpecFloat.shr_s (Nat.iter k SpecFloat.shr_1 mrs) = false).
Proof.
  intros Hm. induction k as [| k [IHm IHx]].
  - simpl. rewrite Z.div_1_r. split; [reflexivity | tauto].
  - rewrite Nat.iter_succ.
    assert (Hk : 0 <= SpecFloat.shr_m (Nat.iter k SpecFloat.shr_1 mrs)).
    { rewrite IHm. apply Z.div_pos; [exact Hm |]. apply Z.pow_pos_nonneg; lia. }
    destruct (shr_1_spec _ Hk) as (Sm & Sr & Ss).
    rewrite Nat2Z.inj_succ, Z.pow_succ_r by lia.
    split.
    + rewrite Sm, IHm, Z.div_div by (try apply Z.pow_pos_nonneg; lia).
      f_equal. lia.
    + intros Hr Hs Hmod.
      set (m := SpecFloat.shr_m mrs) in *.
      set (c := 2 ^ Z.of_nat k) in *.
      assert (Hc : 0 < c) by (apply Z.pow_pos_nonneg; lia).
      apply Z.mod_divide in Hmod; [| lia]. destruct Hmod as [t Ht].
      assert (Hmc : m mod c = 0).
      { rewrite Ht. replace (t * (2 * c)) with (t * 2 * c) by lia.
        apply Z.mod_mul. lia. }
      destruct (IHx Hr Hs Hmc) as [Er Es].
      rewrite Sr, Ss, Er, Es, IHm. split; [| reflexivity].
      rewrite Ht. replace (t * (2 * c)) with (t * 2 * c) by lia.
      rewrite Z.div_mul by lia.
      rewrite Z.mul_comm. apply Z.odd_mul. 
Qed.

Lemma round_nearest_even_bounds (m : Z) (l : SpecFloat.location) :
  m <= SpecFloat.round_nearest_even m l <= m + 1.
Proof.
  destruct l as [| []]; simpl; try lia. destruct (Z.even m); lia.
Qed.

Lemma fexp_above (x : Z) :
  -1074 <= x - 53 -> SpecFloat.fexp FloatOps.prec FloatOps.emax x = x - 53.
Proof.
  intros H. unfold SpecFloat.fexp, SpecFloat.emin, FloatOps.prec, FloatOps.emax.
  lia.
Qed.

(** Rounding a mantissa of more than 53 digits to binary64, away from the
    subnormal and overflow ranges: the result is finite and positive, its
    exponent is that of the shifted mantissa or one more, and its mantissa,
    brought back to the first of these exponents, is the quotient of the
    shift or the quotient plus one, the quotient itself when the shift loses
    nothing. *)
Lemma binary_round_aux_pos (P : positive) (E : Z) :
  53 < Z.pos (SpecFloat.digits2_pos P) ->
  -1074 <= Z.pos (SpecFloat.digits2_pos P) + E - 53 ->
  Z.pos (SpecFloat.digits2_pos P) + E - 53 + 1 <= 971 ->
  exists (r : positive) (e2 R : Z),
    SpecFloat.binary_round_aux FloatOps.prec FloatOps.emax false (Z.pos P) E
      SpecFloat.loc_Exact
    = SpecFloat.S754_finite false r e2 /\
    ((e2 = E + (Z.pos (SpecFloat.digits2_pos P) - 53) /\ Z.pos r = R) \/
     (e2 = E + (Z.pos (SpecFloat.digits2_pos P) - 53) + 1 /\
      2 * Z.pos r = R)) /\
    Z.pos P / 2 ^ (Z.pos (SpecFloat.digits2_pos P) - 53) <= R
    <= Z.pos P / 2 ^ (Z.pos (SpecFloat.digits2_pos P) - 53) + 1 /\
    (Z.pos P mod 2 ^ (Z.pos (SpecFloat.digits2_pos P) - 53) = 0 ->
     R = Z.pos P / 2 ^ (Z.pos (SpecFloat.digits2_pos P) - 53)).
Proof.
  pose proof (digits2_bounds P) as [Blo Bhi].
  set (dg := Z.pos (SpecFloat.digits2_pos P)) in *.
  intros Hdg Hmin Hmax.
  set (n := dg - 53) in *.
  assert (Hn : 0 < n) by (unfold n; lia).
  unfold SpecFloat.binary_round_aux.
  unfold SpecFloat.shr_fexp at 1. cbn [SpecFloat.Zdigits2].
  fold dg. rewrite fexp_above by lia.
  replace (dg + E - 53 - E) with n by (unfold n; lia).
  destruct n as [| pn |] eqn:En; [lia | | lia].
  cbn [SpecFloat.shr SpecFloat.shr_record_of_loc].
  rewrite iter_pos_nat.
  set (rec0 := {| SpecFloat.shr_m := Z.pos P; SpecFloat.shr_r := false;
                  SpecFloat.shr_s := false |}).
  destruct (shr_iter_spec (Pos.to_nat pn) rec0) as [Hq Hex];
    [simpl; lia |].
  rewrite positive_nat_Z in Hq, Hex. cbn [rec0 SpecFloat.shr_m] in Hq, Hex.
  set (mrs := Nat.iter (Pos.to_nat pn) SpecFloat.shr_1 rec0) in *.
  set (q := Z.pos P / 2 ^ Z.pos pn) in *.
  assert (Hpow : 2 ^ (dg - 1) = 2 ^ Z.pos pn * 2 ^ 52).
  { rewrite <- Z.pow_add_r by lia. f_equal. lia. }
  assert (Hpow' : 2 ^ dg = 2 ^ Z.pos pn * 2 ^ 53).
  { rewrite <- Z.pow_add_r by lia. f_equal. lia. }
  assert (Hpn : 0 < 2 ^ Z.pos pn) by (apply Z.pow_pos_nonneg; lia).
  assert (Hqlo : 2 ^ 52 <= q).
  { unfold q. apply Z.div_le_lower_bound; [exact Hpn |]. lia. }
  assert (Hqhi : q < 2 ^ 53).
  { unfold q. apply Z.div_lt_upper_bound; [exact Hpn |]. lia. }
  pose proof (round_nearest_even_bounds (SpecFloat.shr_m mrs)
                (SpecFloat.loc_of_shr_record mrs)) as Hr1.
  set (r1 := SpecFloat.round_nearest_even (SpecFloat.shr_m mrs)
               (SpecFloat.loc_of_shr_record mrs)) in *.
  rewrite Hq in Hr1.
  assert (Hexact : Z.pos P mod 2 ^ Z.pos pn = 0 -> r1 = q).
  { intros Hmod. destruct (Hex eq_refl eq_refl Hmod) as [Er Es].
    unfold r1. destruct mrs as [m r s]. simpl in Er, Es, Hq. subst r s.
    simpl. exact Hq. }
  change (2 ^ 52) with 4503599627370496 in *.
  change (2 ^ 53) with 9007199254740992 in *.
  destruct r1 as [| pr |] eqn:Er1; [lia | | lia].
  unfold SpecFloat.shr_fexp.
  cbn [SpecFloat.Zdigits2 SpecFloat.shr_record_of_loc].
  destruct (Z.eq_dec (Z.pos pr) 9007199254740992) as [Hcarry | Hnocarry].
  - injection Hcarry as ->.
    exists 4503599627370496%positive, (E + Z.pos pn + 1), 9007199254740992.
    split.
    + change (Z.pos (SpecFloat.digits2_pos 9007199254740992)) with 54.
      rewrite fexp_above by lia.
      replace (54 + (E + Z.pos pn) - 53 - (E + Z.pos pn)) with 1 by lia.
      cbn [SpecFloat.shr SpecFloat.iter_pos SpecFloat.shr_1 SpecFloat.shr_m].
      replace (E + Z.pos pn + 1 <=? FloatOps.emax - FloatOps.prec) with true;
        [reflexivity |].
      symmetry. apply Z.leb_le. unfold FloatOps.emax, FloatOps.prec. lia.
    + split; [right; split; [reflexivity | reflexivity] |].
      split; [lia |]. intros Hmod. rewrite <- (Hexact Hmod). reflexivity.
  - assert (Hd53 : Z.pos (SpecFloat.digits2_pos pr) = 53).
    { apply digits2_unique.
      change (2 ^ (53 - 1)) with 4503599627370496.
      change (2 ^ 53) with 9007199254740992. lia. }
    exists pr, (E + Z.pos pn), (Z.pos pr).
    split.
    + rewrite Hd53, fexp_above by lia.
      replace (53 + (E + Z.pos pn) - 53 - (E + Z.pos pn)) with 0 by lia.
      cbn [SpecFloat.shr SpecFloat.shr_m].
      replace (E + Z.pos pn <=? FloatOps.emax - FloatOps.prec) with true;
        [reflexivity |].
      symmetry. apply Z.leb_le. unfold FloatOps.emax, FloatOps.prec. lia.
    + split; [left; split; reflexivity |].
      split; [lia |]. exact Hexact.
Qed.

(** *** The bounds of the script and the order of doubles *)

Lemma Prim2SF_min : Prim2SF (fst Binary64.DEPTH_RANGE)
                    = S754_finite false 7205759403792794 (-56).
Proof. vm_compute. reflexivity. Qed.

Lemma Prim2SF_max : Prim2SF (snd Binary64.DEPTH_RANGE)
                    = S754_finite false 4503599627370496 (-49).
Proof. vm_compute. reflexivity. Qed.

Lemma Prim2SF_100 : Prim2SF 100 = S754_finite false 7036874417766400 (-46).
Proof. vm_compute. reflexivity. Qed.

(** A double above the subnormal range has a mantissa of 53 bits. *)
Lemma mantissa_53 (d : float) (s : bool) (m : positive) (e : Z) :
  Prim2SF d = S754_finite s m e -> -1074 < e ->
  4503599627370496 <= Z.pos m < 9007199254740992.
Proof.
  intros Hd He. pose proof (FloatAxioms.Prim2SF_valid d) as Hv.
  rewrite Hd in Hv. cbn [valid_binary] in Hv. unfold bounded in Hv.
  apply andb_true_iff in Hv. destruct Hv as [Hc _].
  unfold canonical_mantissa in Hc. apply Z.eqb_eq in Hc.
  unfold fexp, emin, prec, emax in Hc.
  assert (Hdg : Z.pos (digits2_pos m) = 53) by lia.
  pose proof (digits2_bounds m) as Hb. rewrite Hdg in Hb.
  change (2 ^ (53 - 1)) with 4503599627370496 in Hb.
  change (2 ^ 53) with 9007199254740992 in Hb. exact Hb.
Qed.

Lemma SFcompare_pos (m1 : positive) (e1 : Z) (m2 : positive) (e2 : Z) :
  SFcompare (S754_finite false m1 e1) (S754_finite false m2 e2)
  = Some (Binary64.lex e1 m1 e2 m2).
Proof. unfold SFcompare, Binary64.lex. destruct (e1 ?= e2); reflexivity. Qed.

Lemma lex_spec (e1 : Z) (m1 : positive) (e2 : Z) (m2 : positive) :
  (Binary64.lex e1 m1 e2 m2 = Lt <->
   e1 < e2 \/ (e1 = e2 /\ Z.pos m1 < Z.pos m2)) /\
  (Binary64.lex e1 m1 e2 m2 = Gt <->
   e2 < e1 \/ (e1 = e2 /\ Z.pos m2 < Z.pos m1)) /\
  (Binary64.lex e1 m1 e2 m2 = Eq <-> e1 = e2 /\ Z.pos m1 = Z.pos m2).
Proof.
  unfold Binary64.lex.
  destruct (Z.compare_spec e1 e2) as [He | He | He].
  - destruct (Pos.compare_spec m1 m2) as [Hm | Hm | Hm];
      repeat split; intros; try discriminate; try lia.
  - repeat split; intros; try discriminate; try lia.
  - repeat split; intros; try discriminate; try lia.
Qed.

Lemma SFleb_pos (m1 : positive) (e1 : Z) (m2 : positive) (e2 : Z) :
  SFleb (S754_finite false m1 e1) (S754_finite false m2 e2) = true
  <-> e1 < e2 \/ (e1 = e2 /\ Z.pos m1 <= Z.pos m2).
Proof.
  unfold SFleb. rewrite SFcompare_pos.
  destruct (lex_spec e1 m1 e2 m2) as (HL & HG & HE).
  destruct (Binary64.lex e1 m1 e2 m2); split; intros H; try reflexivity;
    try discriminate.
  - destruct HE as [HE _]. specialize (HE eq_refl). lia.
  - destruct HL as [HL _]. specialize (HL eq_refl). lia.
  - exfalso. destruct HG as [HG _]. specialize (HG eq_refl). lia.
Qed.

Lemma SFltb_pos (m1 : positive) (e1 : Z) (m2 : positive) (e2 : Z) :
  SFltb (S754_finite false m1 e1) (S754_finite false m2 e2) = true
  <-> e1 < e2 \/ (e1 = e2 /\ Z.pos m1 < Z.pos m2).
Proof.
  unfold SFltb. rewrite SFcompare_pos.
  destruct (lex_spec e1 m1 e2 m2) as (HL & HG & HE).
  destruct (Binary64.lex e1 m1 e2 m2); split; intros H; try reflexivity;
    try discriminate.
  - exfalso. destruct HE as [HE _]. specialize (HE eq_refl). lia.
  - destruct HL as [HL _]. now specialize (HL eq_refl).
  - exfalso. destruct HG as [HG _]. specialize (HG eq_refl). lia.
Qed.

(** The comparisons of the source against 0.1 and 8.0, read on mantissa
    and exponent. *)
Lemma within_between (d : float) :
  Binary64.within d (fst Binary64.DEPTH_RANGE) (snd Binary64.DEPTH_RANGE)
  = true ->
  Binary64.between d.
Proof.
  unfold Binary64.within.
  rewrite !FloatAxioms.leb_spec, Prim2SF_min, Prim2SF_max.
  intros H. apply andb_true_iff in H. destruct H as [Hlo Hhi].
  destruct (Prim2SF d) as [s | s | | s m e] eqn:Hd;
    try (cbv [SFleb SFcompare] in Hlo; discriminate);
    try (destruct s; cbv [SFleb SFcompare] in Hlo, Hhi; discriminate).
  destruct s; [cbv [SFleb SFcompare] in Hlo; discriminate |].
  apply SFleb_pos in Hlo. apply SFleb_pos in Hhi.
  exists m, e. split; [exact Hd |].
  split; [apply (mantissa_53 d false m e Hd); lia |].
  split; [lia | exact Hhi].
Qed.

Lemma between_not_out_of_range (d : float) :
  Binary64.between d ->
  Binary64.out_of_range d
    (fst Binary64.DEPTH_RANGE) (snd Binary64.DEPTH_RANGE) = false /\
  Binary64.within d (fst Binary64.DEPTH_RANGE) (snd Binary64.DEPTH_RANGE)
  = true.
Proof.
  intros (m & e & Hd & Hm & Hlo & Hhi).
  unfold Binary64.out_of_range, Binary64.within.
  rewrite !FloatAxioms.ltb_spec, !FloatAxioms.leb_spec, Prim2SF_min,
    Prim2SF_max, Hd.
  split.
  - apply orb_false_iff. split; apply not_true_iff_false; intros H;
      apply SFltb_pos in H; lia.
  - apply andb_true_iff. split; apply SFleb_pos; lia.
Qed.

(** A number that the test of line 366 lets through is within the
    bounds. *)
Lemma not_out_of_range_between (d : float) :
  Prim2SF d <> S754_nan ->
  Binary64.out_of_range d
    (fst Binary64.DEPTH_RANGE) (snd Binary64.DEPTH_RANGE) = false ->
  Binary64.between d.
Proof.
  intros Hnan Hout. apply within_between.
  unfold Binary64.out_of_range in Hout. unfold Binary64.within.
  rewrite !FloatAxioms.ltb_spec in Hout. rewrite !FloatAxioms.leb_spec.
  rewrite Prim2SF_min, Prim2SF_max in *.
  apply orb_false_iff in Hout. destruct Hout as [H1 H2].
  destruct (Prim2SF d) as [s | s | | s m e] eqn:Hd;
    try congruence;
    try (destruct s; cbv [SFltb SFcompare] in H1, H2; discriminate).
  destruct s; [cbv [SFltb SFcompare] in H1; discriminate |].
  apply not_true_iff_false in H1, H2.
  rewrite SFltb_pos in H1, H2.
  apply andb_true_iff. split; apply SFleb_pos; lia.
Qed.

(** *** The centimetres of a distance within the bounds *)

Ltac eval_pow2 :=
  repeat match goal with
         | |- context [2 ^ ?x] =>
             let v := eval vm_compute in (2 ^ x) in change (2 ^ x) with v
         | H : context [2 ^ ?x] |- _ =>
             let v := eval vm_compute in (2 ^ x) in
             change (2 ^ x) with v in H
         end.

(** The double product [dist_m * 100] of a distance within the bounds has
    an integer part from 10 to 800: the product of the mantissas has 105 or
    106 bits, its rounding to 53 bits is the quotient of the shift or one
    more, and never crosses 10 downward or 800 upward, which are doubles
    themselves. *)
Lemma centimetres_between (d : float) :
  Binary64.between d -> 10 <= Binary64.int (Binary64.centimetres d) <= 800.
Proof.
  intros (m & e & Hd & Hm & Hlo & Hhi).
  unfold Binary64.int, Binary64.centimetres.
  rewrite FloatAxioms.mul_spec, Hd, Prim2SF_100.
  unfold FloatAxioms.SF64mul. cbn [SFmul xorb].
  set (P := (m * 7036874417766400)%positive).
  assert (HP : Z.pos P = Z.pos m * 7036874417766400)
    by (unfold P; apply Pos2Z.inj_mul).
  assert (He : -56 <= e <= -49) by lia.
  assert (Hdg : Z.pos (digits2_pos P) = 105 \/ Z.pos (digits2_pos P) = 106).
  { destruct (Z.lt_ge_cases (Z.pos P) (2 ^ 105)) as [Hlt | Hge].
    - left. apply digits2_unique. split; [| exact Hlt].
      eval_pow2. lia.
    - right. apply digits2_unique. split; [exact Hge |].
      eval_pow2. lia. }
  pose proof (digits2_bounds P) as HB.
  destruct Hdg as [Hdg | Hdg];
    (destruct (binary_round_aux_pos P (e + -46))
       as (r & e2 & R & Heq & He2 & HR & Hexact);
     [rewrite Hdg; lia .. |]);
    rewrite Heq; rewrite Hdg in *; clear Heq Hdg;
    assert (Hcases : e = -56 \/ e = -55 \/ e = -54 \/ e = -53 \/
                     e = -52 \/ e = -51 \/ e = -50 \/ e = -49) by lia;
    destruct Hcases as [-> | [-> | [-> | [-> | [-> | [-> | [-> | ->]]]]]]];
    destruct He2 as [[-> Hr] | [-> Hr]];
    match goal with
    | |- context [0 <=? ?x] =>
        let v := eval vm_compute in (0 <=? x) in
        change (0 <=? x) with v; cbv iota
    end;
    eval_pow2;
    match type of HR with
    | Z.pos P / ?N <= _ <= _ =>
        pose proof (Z.div_mod (Z.pos P) N ltac:(lia)) as Hdm;
        pose proof (Z.mod_pos_bound (Z.pos P) N ltac:(lia)) as Hmb;
        revert Hdm Hmb HR Hexact;
        generalize (Z.pos P / N) (Z.pos P mod N);
        intros q t Hdm Hmb HR Hexact
    end;
    (split; [apply Z.div_le_lower_bound | apply Z.div_le_upper_bound]; lia).
Qed.

(** *** Integers as doubles, and the indices of line 365 *)

Lemma for_all_below_spec (n : Z) (ok : Z -> bool) :
  Binary64.for_all_below n ok = true ->
  forall z, 0 <= z < n -> ok z = true.
Proof.
  unfold Binary64.for_all_below. intros Hall z Hz.
  destruct n as [| p |]; [lia | | lia].
  set (F := fun st : bool * Z => (fst st && ok (snd st), snd st + 1)) in *.
  change (Z.iter (Z.pos p) F (true, 0)) with (Pos.iter F (true, 0) p) in Hall.
  rewrite Pos2Nat.inj_iter in Hall.
  assert (Hinv : forall k : nat,
            snd (Nat.iter k F (true, 0)) = Z.of_nat k /\
            (fst (Nat.iter k F (true, 0)) = true ->
             forall y, 0 <= y < Z.of_nat k -> ok y = true)).
  { induction k as [| k [IHs IHf]].
    - simpl. split; [reflexivity | intros _ y Hy; lia].
    - rewrite Nat.iter_succ. unfold F at 1. cbn [fst snd].
      split; [rewrite IHs; lia |].
      intros Hb y Hy. apply andb_true_iff in Hb. destruct Hb as [Hb Hok].
      rewrite IHs in Hok.
      destruct (Z.eq_dec y (Z.of_nat k)) as [-> | Hne]; [exact Hok |].
      apply IHf; [exact Hb | lia]. }
  destruct (Hinv (Pos.to_nat p)) as [_ Hf].
  apply Hf; [exact Hall |]. lia.
Qed.

Lemma exact_int_table :
  Binary64.for_all_below 4098 Binary64.exact_int = true.
Proof. vm_compute. reflexivity. Qed.

Lemma columns_ok_table :
  Binary64.for_all_below 4097 Binary64.columns_ok = true.
Proof. vm_compute. reflexivity. Qed.

Lemma row_ok_table :
  Binary64.for_all_below 4097 Binary64.row_ok = true.
Proof. vm_compute. reflexivity. Qed.

Lemma mantissa_lt (d : float) (s : bool) (m : positive) (e : Z) :
  Prim2SF d = S754_finite s m e -> Z.pos m < 9007199254740992.
Proof.
  intros Hd. pose proof (FloatAxioms.Prim2SF_valid d) as Hv.
  rewrite Hd in Hv. cbn [valid_binary] in Hv. unfold bounded in Hv.
  apply andb_true_iff in Hv. destruct Hv as [Hc _].
  unfold canonical_mantissa in Hc. apply Z.eqb_eq in Hc.
  unfold fexp, emin, prec, emax in Hc.
  assert (Hdg : Z.pos (digits2_pos m) <= 53) by lia.
  pose proof (digits2_bounds m) as [_ Hb].
  eapply Z.lt_le_trans; [exact Hb |].
  change 9007199254740992 with (2 ^ 53).
  apply Z.pow_le_mono_r; lia.
Qed.

Lemma exponent_ge (d : float) (s : bool) (m : positive) (e : Z) :
  Prim2SF d = S754_finite s m e -> -1074 <= e.
Proof.
  intros Hd. pose proof (FloatAxioms.Prim2SF_valid d) as Hv.
  rewrite Hd in Hv. cbn [valid_binary] in Hv. unfold bounded in Hv.
  apply andb_true_iff in Hv. destruct Hv as [Hc _].
  unfold canonical_mantissa in Hc. apply Z.eqb_eq in Hc.
  unfold fexp, emin, prec, emax in Hc. lia.
Qed.

(** What [exact_int] records of an integer from 1 to 4097. *)
Lemma exact_int_pos (z : Z) :
  0 < z <= 4097 ->
  exists m e,
    Prim2SF (Binary64.float_of_int z) = S754_finite false m e /\
    e < 0 /\ Z.pos m = z * 2 ^ (- e) /\ 4503599627370496 <= Z.pos m.
Proof.
  intros Hz.
  pose proof (for_all_below_spec _ _ exact_int_table z ltac:(lia)) as H.
  unfold Binary64.exact_int in H.
  destruct (Prim2SF (Binary64.float_of_int z)) as [[] | [] | | [] m e];
    try discriminate; try (apply Z.eqb_eq in H; lia).
  exists m, e. split; [reflexivity |].
  apply andb_true_iff in H. destruct H as [H H4].
  apply andb_true_iff in H. destruct H as [H H3].
  apply andb_true_iff in H. destruct H as [H1 H2].
  apply Z.ltb_lt in H2. apply Z.eqb_eq in H3. apply Z.leb_le in H4.
  auto.
Qed.

Lemma exact_int_zero : Prim2SF (Binary64.float_of_int 0) = S754_zero false.
Proof. vm_compute. reflexivity. Qed.

(** A double that is not below 0 truncates to 0 at least. *)
Lemma b64_int_ge_0 (x : float) :
  (Binary64.float_of_int 0 <=? x)%float = true -> 0 <= Binary64.int x.
Proof.
  intros H0. rewrite FloatAxioms.leb_spec, exact_int_zero in H0.
  unfold Binary64.int.
  destruct (Prim2SF x) as [s | s | | s m e] eqn:Hx; try lia.
  destruct s; [cbv in H0; discriminate |].
  destruct (0 <=? e) eqn:E0.
  - apply Z.leb_le in E0. apply Z.mul_nonneg_nonneg; [lia |].
    apply Z.pow_nonneg. lia.
  - apply Z.div_pos; [lia |]. apply Z.pow_pos_nonneg; lia.
Qed.

(** A double below the double of [b] truncates below [b]. *)
Lemma b64_int_lt (x : float) (b : Z) :
  0 < b <= 4097 ->
  (x <? Binary64.float_of_int b)%float = true ->
  Binary64.int x < b.
Proof.
  intros Hb H1.
  destruct (exact_int_pos b Hb) as (mb & eb & Eb & Heb & Hmb & Hnb).
  rewrite FloatAxioms.ltb_spec, Eb in H1.
  unfold Binary64.int.
  destruct (Prim2SF x) as [s | s | | s m e] eqn:Hx; try lia.
  destruct s.
  { assert (0 <= if 0 <=? e then Z.pos m * 2 ^ e else Z.pos m / 2 ^ (- e));
      [| lia].
    destruct (0 <=? e) eqn:E0.
    - apply Z.leb_le in E0. apply Z.mul_nonneg_nonneg; [lia |].
      apply Z.pow_nonneg. lia.
    - apply Z.div_pos; [lia |]. apply Z.pow_pos_nonneg.
      + lia.
      + apply Z.leb_gt in E0. lia. }
  apply SFltb_pos in H1.
  assert (He : e < 0) by lia.
  destruct (0 <=? e) eqn:E0; [apply Z.leb_le in E0; lia |].
  assert (Hp : 0 < 2 ^ (- e)) by (apply Z.pow_pos_nonneg; lia).
  apply Z.div_lt_upper_bound; [exact Hp |].
  destruct H1 as [Hlt | [-> Hlt]].
  - pose proof (mantissa_lt x false m e Hx) as Hm.
    replace (- e) with (- eb + (eb - e)) by lia.
    rewrite Z.pow_add_r by lia.
    assert (Hk : 2 ^ 1 <= 2 ^ (eb - e)) by (apply Z.pow_le_mono_r; lia).
    change (2 ^ 1) with 2 in Hk.
    assert (Hq : 0 < 2 ^ (- eb)) by (apply Z.pow_pos_nonneg; lia).
    replace (2 ^ (- eb) * 2 ^ (eb - e) * b)
      with (Z.pos mb * 2 ^ (eb - e)) by (rewrite Hmb; ring).
    nia.
  - rewrite Z.mul_comm, <- Hmb. exact Hlt.
Qed.

(** A double from the double of [a] on, and below that of some [b],
    truncates to [a] at least. *)
Lemma b64_int_ge (x : float) (a b : Z) :
  0 < a <= 4097 -> 0 < b <= 4097 ->
  (Binary64.float_of_int a <=? x)%float = true ->
  (x <? Binary64.float_of_int b)%float = true ->
  a <= Binary64.int x.
Proof.
  intros Ha Hb H0 H1.
  destruct (exact_int_pos a Ha) as (ma & ea & Ea & Hea & Hma & Hna).
  destruct (exact_int_pos b Hb) as (mb & eb & Eb & Heb & Hmb & Hnb).
  rewrite FloatAxioms.leb_spec, Ea in H0.
  rewrite FloatAxioms.ltb_spec, Eb in H1.
  unfold Binary64.int.
  destruct (Prim2SF x) as [s | s | | s m e] eqn:Hx.
  - destruct s; cbv in H1; discriminate.
  - destruct s; cbv in H1; discriminate.
  - cbv in H1. discriminate.
  - destruct s; [cbv in H0; discriminate |].
    apply SFltb_pos in H1. apply SFleb_pos in H0.
    assert (He : e < 0) by lia.
    destruct (0 <=? e) eqn:E0; [apply Z.leb_le in E0; lia |].
    assert (Hp : 0 < 2 ^ (- e)) by (apply Z.pow_pos_nonneg; lia).
    apply Z.div_le_lower_bound; [exact Hp |].
    destruct H0 as [Hlt | [<- Hle]].
    + pose proof (exponent_ge _ _ _ _ Ea) as Hge.
      pose proof (mantissa_53 x false m e Hx ltac:(lia)) as Hm.
      pose proof (mantissa_lt _ _ _ _ Ea) as Hma'.
      assert (Hs : 2 ^ (- ea) = 2 ^ (- e) * 2 ^ (e - ea)).
      { rewrite <- Z.pow_add_r by lia. f_equal. lia. }
      assert (Hk : 2 ^ 1 <= 2 ^ (e - ea)) by (apply Z.pow_le_mono_r; lia).
      change (2 ^ 1) with 2 in Hk.
      rewrite Hs in Hma. nia.
    + rewrite Z.mul_comm, <- Hma. exact Hle.
Qed.

Lemma b64_sample_col_column (depth_mat : ndarray) (i : nat) :
  Binary64.sample_col depth_mat i
  = Binary64.int (Binary64.column (mk_ndarray 0 (shape1 depth_mat) []) i).
Proof. reflexivity. Qed.

(** On a frame up to 4096 wide the column of every sector is inside the
    row, and is [floor(i*W/72)] or the column before it. *)
Lemma b64_sample_col_spec (depth_mat : ndarray) (i : nat) :
  0 < shape1 depth_mat <= Binary64.MAX_SIDE -> (i < DISTANCES_ARRAY_LEN)%nat ->
  0 <= Binary64.sample_col depth_mat i < shape1 depth_mat /\
  Z.of_nat i * shape1 depth_mat / 72 - 1
  <= Binary64.sample_col depth_mat i
  <= Z.of_nat i * shape1 depth_mat / 72.
Proof.
  unfold Binary64.MAX_SIDE, DISTANCES_ARRAY_LEN. intros Hw Hi.
  pose proof (for_all_below_spec _ _ columns_ok_table
                (shape1 depth_mat) ltac:(lia)) as Hok.
  unfold Binary64.columns_ok in Hok. rewrite forallb_forall in Hok.
  specialize (Hok i). rewrite in_seq in Hok.
  specialize (Hok ltac:(unfold DISTANCES_ARRAY_LEN; lia)).
  cbv zeta in Hok. apply andb_true_iff in Hok. destruct Hok as [Hlo Hhi].
  rewrite b64_sample_col_column.
  set (x := Binary64.column (mk_ndarray 0 (shape1 depth_mat) []) i) in *.
  set (w := shape1 depth_mat) in *.
  assert (Hf : 0 <= Z.of_nat i * w / 72 < w).
  { split; [apply Z.div_pos; lia |].
    apply Z.div_lt_upper_bound; nia. }
  set (f := Z.of_nat i * w / 72) in *.
  pose proof (b64_int_lt x (f + 1) ltac:(lia) Hhi) as Hup.
  destruct (Z.max_spec 0 (f - 1)) as [[Hc Hm] | [Hc Hm]]; rewrite Hm in Hlo.
  - pose proof (b64_int_ge x (f - 1) (f + 1) ltac:(lia) ltac:(lia) Hlo Hhi).
    lia.
  - pose proof (b64_int_ge_0 x Hlo). lia.
Qed.

Lemma b64_sample_row_spec (depth_mat : ndarray) :
  0 < shape0 depth_mat <= Binary64.MAX_SIDE ->
  Binary64.sample_row depth_mat = shape0 depth_mat / 2.
Proof.
  unfold Binary64.MAX_SIDE. intros Hh.
  pose proof (for_all_below_spec _ _ row_ok_table
                (shape0 depth_mat) ltac:(lia)) as Hok.
  unfold Binary64.row_ok in Hok. apply Z.eqb_eq in Hok. exact Hok.
Qed.

Lemma b64_sampled_pixel_is_Some (depth_mat : ndarray) (i : nat) :
  Binary64.camera_frame depth_mat -> (i < DISTANCES_ARRAY_LEN)%nat ->
  exists raw,
    Binary64.sampled_pixel depth_mat i = Some raw /\ raw ∈ data depth_mat.
Proof.
  intros (Hwf & Hh & Hw) Hi.
  destruct (b64_sample_col_spec depth_mat i Hw Hi) as [Hc _].
  pose proof (b64_sample_row_spec depth_mat Hh) as Hr.
  unfold Binary64.sampled_pixel, getitem. rewrite Hr.
  assert (Hrow : 0 <= shape0 depth_mat / 2 < shape0 depth_mat).
  { split; [apply Z.div_pos; lia | apply Z.div_lt_upper_bound; lia]. }
  destruct Hwf as (H0 & H1 & Hlen).
  set (r := shape0 depth_mat / 2) in *.
  set (c := Binary64.sample_col depth_mat i) in *.
  replace ((0 <=? r) && (r <? shape0 depth_mat)
           && (0 <=? c) && (c <? shape1 depth_mat)) with true.
  2:{ symmetry. rewrite !andb_true_iff, !Z.leb_le, !Z.ltb_lt. lia. }
  destruct (data depth_mat !! Z.to_nat (r * shape1 depth_mat + c))
    as [raw |] eqn:E.
  - exists raw. split; [reflexivity |]. eapply list_elem_of_lookup_2, E.
  - exfalso. apply lookup_ge_None in E. nia.
Qed.

(** *** Products of numbers are numbers *)

Lemma shr_fexp_nonneg (m e : Z) (l : location) :
  0 <= m -> 0 <= shr_m (fst (shr_fexp prec emax m e l)).
Proof.
  intros Hm. unfold shr_fexp, shr.
  assert (H0 : shr_m (shr_record_of_loc m l) = m)
    by (destruct l as [| []]; reflexivity).
  destruct (fexp prec emax (Zdigits2 m + e) - e) as [| p |];
    cbn [fst]; try (rewrite H0; exact Hm).
  rewrite iter_pos_nat.
  destruct (shr_iter_spec (Pos.to_nat p) (shr_record_of_loc m l)) as [Hq _];
    [rewrite H0; exact Hm |].
  rewrite Hq, H0. apply Z.div_pos; [exact Hm |].
  apply Z.pow_pos_nonneg; lia.
Qed.

(** Rounding a non-negative mantissa never gives NaN. *)
Lemma binary_round_aux_not_nan (s : bool) (m e : Z) (l : location) :
  0 <= m -> binary_round_aux prec emax s m e l <> S754_nan.
Proof.
  intros Hm. unfold binary_round_aux.
  pose proof (shr_fexp_nonneg m e l Hm) as H1.
  destruct (shr_fexp prec emax m e l) as [mrs1 e1]. cbn [fst] in H1.
  pose proof (round_nearest_even_bounds (shr_m mrs1)
                (loc_of_shr_record mrs1)) as Hr.
  set (r := round_nearest_even (shr_m mrs1) (loc_of_shr_record mrs1)) in *.
  pose proof (shr_fexp_nonneg r e1 loc_Exact ltac:(lia)) as H2.
  destruct (shr_fexp prec emax r e1 loc_Exact) as [mrs2 e2]. cbn [fst] in H2.
  destruct (shr_m mrs2) as [| p | p]; [discriminate | | lia].
  destruct (e2 <=? emax - prec); discriminate.
Qed.

(** The product of two finite doubles is a number. *)
Lemma mul_not_nan (x y : float) :
  Binary64.finite x = true -> Binary64.finite y = true ->
  Prim2SF (x * y) <> S754_nan.
Proof.
  unfold Binary64.finite. intros Hx Hy. rewrite FloatAxioms.mul_spec.
  unfold FloatAxioms.SF64mul.
  destruct (Prim2SF x) as [sx | sx | | sx mx ex]; try discriminate;
    destruct (Prim2SF y) as [sy | sy | | sy my ey]; try discriminate;
    cbn [SFmul]; try discriminate.
  apply binary_round_aux_not_nan. lia.
Qed.

Lemma raw_is_finite_table :
  Binary64.for_all_below 65536
    (fun raw => Binary64.finite (Binary64.float_of_int raw)) = true.
Proof. vm_compute. reflexivity. Qed.

Lemma dist_m_not_nan (depth_scale : float) (raw : Z) :
  Binary64.finite depth_scale = true -> 0 <= raw < 65536 ->
  Prim2SF (Binary64.dist_m depth_scale raw) <> S754_nan.
Proof.
  intros Hs Hraw. unfold Binary64.dist_m. apply mul_not_nan; [| exact Hs].
  exact (for_all_below_spec _ _ raw_is_finite_table raw Hraw).
Qed.

(** ** The conversion of one pixel, on doubles *)

Lemma b64_sentinel :
  Binary64.to_uint16 (snd Binary64.DEPTH_RANGE * 100 + 1)
  = Binary64.MAX_DEPTH_CM + 1.
Proof. vm_compute. reflexivity. Qed.

Lemma b64_constants :
  Binary64.MIN_DEPTH_CM = 10 /\ Binary64.MAX_DEPTH_CM = 800.
Proof. split; vm_compute; reflexivity. Qed.

Lemma b64_sector_value_out (depth_scale : float) (raw : Z) :
  Binary64.out_of_range (Binary64.dist_m depth_scale raw)
    (fst Binary64.DEPTH_RANGE) (snd Binary64.DEPTH_RANGE) = true ->
  Binary64.sector_value depth_scale raw
    (fst Binary64.DEPTH_RANGE) (snd Binary64.DEPTH_RANGE)
  = Binary64.MAX_DEPTH_CM + 1.
Proof.
  intros H. rewrite <- b64_sentinel. unfold Binary64.sector_value.
  unfold Binary64.out_of_range, Binary64.dist_m in H. rewrite H. reflexivity.
Qed.

Lemma b64_sector_value_in (depth_scale : float) (raw : Z) :
  Binary64.between (Binary64.dist_m depth_scale raw) ->
  Binary64.sector_value depth_scale raw
    (fst Binary64.DEPTH_RANGE) (snd Binary64.DEPTH_RANGE)
  = Binary64.int (Binary64.centimetres (Binary64.dist_m depth_scale raw)) /\
  Binary64.MIN_DEPTH_CM
  <= Binary64.int (Binary64.centimetres (Binary64.dist_m depth_scale raw))
  <= Binary64.MAX_DEPTH_CM.
Proof.
  intros Hb. destruct b64_constants as [-> ->].
  pose proof (centimetres_between _ Hb) as Hc.
  destruct (between_not_out_of_range _ Hb) as [Ho _].
  split; [| exact Hc].
  unfold Binary64.sector_value.
  unfold Binary64.out_of_range, Binary64.dist_m in Ho. rewrite Ho.
  unfold Binary64.to_uint16. fold (Binary64.dist_m depth_scale raw).
  fold (Binary64.centimetres (Binary64.dist_m depth_scale raw)).
  apply Z.mod_small. lia.
Qed.

(** Either branch of lines 366-369, for a pixel of 16 bits and a finite
    depth scale. *)
Lemma b64_sector_value_cases (depth_scale : float) (raw : Z) :
  Binary64.finite depth_scale = true -> 0 <= raw < 65536 ->
  (Binary64.out_of_range (Binary64.dist_m depth_scale raw)
     (fst Binary64.DEPTH_RANGE) (snd Binary64.DEPTH_RANGE) = true /\
   Binary64.sector_value depth_scale raw
     (fst Binary64.DEPTH_RANGE) (snd Binary64.DEPTH_RANGE)
   = Binary64.MAX_DEPTH_CM + 1) \/
  (Binary64.out_of_range (Binary64.dist_m depth_scale raw)
     (fst Binary64.DEPTH_RANGE) (snd Binary64.DEPTH_RANGE) = false /\
   Binary64.MIN_DEPTH_CM
   <= Binary64.sector_value depth_scale raw
        (fst Binary64.DEPTH_RANGE) (snd Binary64.DEPTH_RANGE)
   <= Binary64.MAX_DEPTH_CM).
Proof.
  intros Hs Hraw.
  destruct (Binary64.out_of_range (Binary64.dist_m depth_scale raw)
              (fst Binary64.DEPTH_RANGE) (snd Binary64.DEPTH_RANGE)) eqn:Ho.
  - left. split; [reflexivity |]. now apply b64_sector_value_out.
  - right. split; [reflexivity |].
    pose proof (not_out_of_range_between _
                  (dist_m_not_nan depth_scale raw Hs Hraw) Ho) as Hb.
    destruct (b64_sector_value_in depth_scale raw Hb) as [-> Hc]. exact Hc.
Qed.

(** ** The loop, on doubles *)

Lemma b64_for_range_seq (depth_scale : float) (m : ndarray) (mn mx : float) :
  forall (n a : nat) (d : list Z),
    (a + n <= length d)%nat ->
    (forall i, (a <= i < a + n)%nat -> is_Some (Binary64.sampled_pixel m i)) ->
    exists out,
      Binary64.for_range depth_scale m mn mx (seq a n) d = Some out /\
      length out = length d /\
      (forall i, (a <= i < a + n)%nat ->
         exists raw, Binary64.sampled_pixel m i = Some raw /\
           out !! i = Some (Binary64.sector_value depth_scale raw mn mx)) /\
      (forall i, ~ (a <= i < a + n)%nat -> out !! i = d !! i).
Proof.
  induction n as [|n IH]; intros a d Hlen Hpix.
  - exists d. simpl. split; [reflexivity |]. split; [reflexivity |].
    split; [intros i Hi; lia | reflexivity].
  - destruct (Hpix a ltac:(lia)) as [raw Hraw].
    cbn [seq Binary64.for_range].
    unfold Binary64.sampled_pixel in Hraw. rewrite Hraw.
    rewrite setitem_Some by lia.
    set (d1 := <[a := Binary64.sector_value depth_scale raw mn mx]> d).
    assert (Hlen1 : length d1 = length d) by apply length_insert.
    destruct (IH (S a) d1) as (out & Hrun & Hl & Hin & Hout).
    + rewrite Hlen1. lia.
    + intros i Hi. apply Hpix. lia.
    + exists out. split; [exact Hrun |]. split; [congruence |]. split.
      * intros i Hi. destruct (decide (i = a)) as [-> | Hne].
        -- exists raw. split; [exact Hraw |].
           rewrite Hout by lia. unfold d1.
           apply list_lookup_insert_eq. lia.
        -- apply Hin. lia.
      * intros i Hi. rewrite Hout by lia. unfold d1.
        apply list_lookup_insert_ne. lia.
Qed.

(** The function on a frame of at most 4096 by 4096 pixels, writing into
    an array of [DISTANCES_ARRAY_LEN] cells: every read is inside the
    matrix, so it returns; the array keeps its length, and cell [i] holds
    the conversion of sector [i]'s pixel. *)
Lemma b64_distances_from_depth_image_spec (depth_scale : float)
    (m : ndarray) (d : list Z) (mn mx : float) :
  Binary64.camera_frame m -> length d = DISTANCES_ARRAY_LEN ->
  exists out,
    Binary64.distances_from_depth_image depth_scale m d mn mx = Some out /\
    length out = DISTANCES_ARRAY_LEN /\
    (forall i, (i < DISTANCES_ARRAY_LEN)%nat ->
       exists raw, Binary64.sampled_pixel m i = Some raw /\ raw ∈ data m /\
         out !! i = Some (Binary64.sector_value depth_scale raw mn mx)).
Proof.
  intros Hm Hd. unfold Binary64.distances_from_depth_image.
  destruct (b64_for_range_seq depth_scale m mn mx DISTANCES_ARRAY_LEN 0 d)
    as (out & Hrun & Hl & Hin & _).
  - lia.
  - intros i Hi.
    destruct (b64_sampled_pixel_is_Some m i Hm ltac:(lia)) as (raw & -> & _).
    eexists. reflexivity.
  - exists out. split; [exact Hrun |]. split; [congruence |].
    intros i Hi. destruct (Hin i ltac:(lia)) as (raw & Hraw & Hv).
    destruct (b64_sampled_pixel_is_Some m i Hm Hi) as (raw' & Hraw' & Hel).
    exists raw. split; [exact Hraw |]. split; [| exact Hv]. congruence.
Qed.

End Doubles.

(** ** Frames of the camera *)

Lemma constant_frame_camera (h w : nat) (raw : Z) :
  0 < Z.of_nat h <= 4096 -> 0 < Z.of_nat w <= 4096 ->
  Binary64.camera_frame (constant_frame h w raw).
Proof.
  intros Hh Hw. split; [apply constant_frame_wf |].
  unfold Binary64.MAX_SIDE, constant_frame. cbn [shape0 shape1].
  split; assumption.
Qed.

Lemma b64_constant_frame_sampled_pixel (h w : nat) (raw : Z) (i : nat) :
  0 < Z.of_nat h <= 4096 -> 0 < Z.of_nat w <= 4096 ->
  (i < DISTANCES_ARRAY_LEN)%nat ->
  Binary64.sampled_pixel (constant_frame h w raw) i = Some raw.
Proof.
  intros Hh Hw Hi.
  destruct (b64_sampled_pixel_is_Some (constant_frame h w raw) i
              (constant_frame_camera h w raw Hh Hw) Hi) as (v & -> & Hel).
  unfold constant_frame in Hel. cbn [data] in Hel.
  apply elem_of_replicate in Hel. destruct Hel as [-> _]. reflexivity.
Qed.

(** The cell of a pixel in the two scenarios, on doubles. *)
Lemma b64_scenario_values :
  Binary64.sector_value Binary64.depth_unit_double 9000
    (fst Binary64.DEPTH_RANGE) (snd Binary64.DEPTH_RANGE) = 801 /\
  Binary64.sector_value Binary64.depth_unit_double 2000
    (fst Binary64.DEPTH_RANGE) (snd Binary64.DEPTH_RANGE) = 200 /\
  Binary64.sector_value Binary64.depth_unit_double 1999
    (fst Binary64.DEPTH_RANGE) (snd Binary64.DEPTH_RANGE) = 199.
Proof. repeat apply conj; vm_compute; reflexivity. Qed.

Lemma b64_constant_frame_run (depth_scale : PrimFloat.float) (h w : nat)
    (raw : Z) (d : list Z) :
  0 < Z.of_nat h <= 4096 -> 0 < Z.of_nat w <= 4096 ->
  length d = DISTANCES_ARRAY_LEN ->
  Binary64.distances_from_depth_image depth_scale (constant_frame h w raw) d
    (fst Binary64.DEPTH_RANGE) (snd Binary64.DEPTH_RANGE)
  = Some (replicate DISTANCES_ARRAY_LEN
            (Binary64.sector_value depth_scale raw
               (fst Binary64.DEPTH_RANGE) (snd Binary64.DEPTH_RANGE))).
Proof.
  intros Hh Hw Hd.
  destruct (b64_distances_from_depth_image_spec depth_scale
              (constant_frame h w raw) d
              (fst Binary64.DEPTH_RANGE) (snd Binary64.DEPTH_RANGE)
              (constant_frame_camera h w raw Hh Hw) Hd)
    as (out & -> & Hl & Hcells).
  f_equal. apply all_cells_replicate; [exact Hl |].
  intros i Hi. destruct (Hcells i Hi) as (v & Hv & _ & ->).
  rewrite b64_constant_frame_sampled_pixel in Hv by assumption.
  now inversion Hv.
Qed.

(** ** Out-of-range and in-range sectors *)

(** C1. On every depth frame (from one row and one column up to 4096 by
    4096), with the range of the script and any depth scale, for every
    sector [i] whose sampled raw value [v] makes the test of line 366 true
    on doubles -- [v * depth_scale] below [min_depth_m] or above
    [max_depth_m] -- the function writes exactly the sentinel
    [MAX_DEPTH_CM + 1] into cell [i], whatever [v] is.  In particular with
    scale 0.001 a frame whose sampled pixels are all 9000 gives 801 in
    every sector. *)
Theorem out_of_range_sector_is_sentinel (depth_scale : PrimFloat.float)
    (depth_mat : ndarray) (distances : list Z) :
  Binary64.camera_frame depth_mat ->
  length distances = DISTANCES_ARRAY_LEN ->
  exists out,
    Binary64.distances_from_depth_image depth_scale depth_mat distances
      (fst Binary64.DEPTH_RANGE) (snd Binary64.DEPTH_RANGE) = Some out /\
    (forall (i : nat) (v : Z),
       (i < DISTANCES_ARRAY_LEN)%nat ->
       Binary64.sampled_pixel depth_mat i = Some v ->
       Binary64.out_of_range (Binary64.dist_m depth_scale v)
         (fst Binary64.DEPTH_RANGE) (snd Binary64.DEPTH_RANGE) = true ->
       out !! i = Some (Binary64.MAX_DEPTH_CM + 1)) /\
    (depth_scale = Binary64.depth_unit_double ->
     (forall i, (i < DISTANCES_ARRAY_LEN)%nat ->
        Binary64.sampled_pixel depth_mat i = Some 9000) ->
     out = replicate DISTANCES_ARRAY_LEN 801).
Proof.
  intros Hm Hd.
  destruct (b64_distances_from_depth_image_spec depth_scale depth_mat
              distances (fst Binary64.DEPTH_RANGE) (snd Binary64.DEPTH_RANGE)
              Hm Hd) as (out & Hrun & Hl & Hcells).
  exists out. split; [exact Hrun |]. split.
  - intros i v Hi Hv Hout.
    destruct (Hcells i Hi) as (raw & Hraw & _ & Hcell).
    rewrite Hv in Hraw. inversion Hraw; subst raw.
    rewrite Hcell. f_equal. now apply b64_sector_value_out.
  - intros -> Hall. apply all_cells_replicate; [exact Hl |].
    intros i Hi. destruct (Hcells i Hi) as (raw & Hraw & _ & Hcell).
    rewrite (Hall i Hi) in Hraw. inversion Hraw; subst raw.
    destruct b64_scenario_values as (E & _). rewrite Hcell, E. reflexivity.
Qed.

Lemma out_of_range_sector_is_sentinel_witness :
  Binary64.distances_from_depth_image Binary64.depth_unit_double
    (constant_frame 480 640 9000) distances_init
    (fst Binary64.DEPTH_RANGE) (snd Binary64.DEPTH_RANGE)
  = Some (replicate DISTANCES_ARRAY_LEN 801).
Proof.
  destruct (out_of_range_sector_is_sentinel Binary64.depth_unit_double
              (constant_frame 480 640 9000) distances_init)
    as (out & Hrun & _ & Hall).
  - apply constant_frame_camera; lia.
  - apply distances_init_length.
  - rewrite Hrun. f_equal. apply Hall; [reflexivity |].
    intros i Hi. apply b64_constant_frame_sampled_pixel; [lia | lia | exact Hi].
Defined.

(** C2, as the code has it.  On every depth frame, with the range of the
    script, for every sector [i] whose sampled distance
    [dist_m = v * depth_scale], a double, lies within
    [[min_depth_m, max_depth_m]], the function writes [int(dist_m * 100)]
    into cell [i]: the double product with its fraction dropped, never
    rounded to the nearest integer, a value from [MIN_DEPTH_CM] to
    [MAX_DEPTH_CM].  In particular with scale 0.001 a frame whose centre
    row is constant 2000 gives 200 in every sector. *)
Theorem in_range_sector_is_truncated_cm (depth_scale : PrimFloat.float)
    (depth_mat : ndarray) (distances : list Z) :
  Binary64.camera_frame depth_mat ->
  length distances = DISTANCES_ARRAY_LEN ->
  exists out,
    Binary64.distances_from_depth_image depth_scale depth_mat distances
      (fst Binary64.DEPTH_RANGE) (snd Binary64.DEPTH_RANGE) = Some out /\
    (forall (i : nat) (v : Z),
       (i < DISTANCES_ARRAY_LEN)%nat ->
       Binary64.sampled_pixel depth_mat i = Some v ->
       Binary64.within (Binary64.dist_m depth_scale v)
         (fst Binary64.DEPTH_RANGE) (snd Binary64.DEPTH_RANGE) = true ->
       out !! i
       = Some (Binary64.int
                 (Binary64.centimetres (Binary64.dist_m depth_scale v))) /\
       Binary64.MIN_DEPTH_CM
       <= Binary64.int (Binary64.centimetres (Binary64.dist_m depth_scale v))
       <= Binary64.MAX_DEPTH_CM) /\
    (depth_scale = Binary64.depth_unit_double ->
     (forall c, 0 <= c < shape1 depth_mat ->
        getitem depth_mat (shape0 depth_mat / 2) c = Some 2000) ->
     out = replicate DISTANCES_ARRAY_LEN 200).
Proof.
  intros Hm Hd.
  destruct (b64_distances_from_depth_image_spec depth_scale depth_mat
              distances (fst Binary64.DEPTH_RANGE) (snd Binary64.DEPTH_RANGE)
              Hm Hd) as (out & Hrun & Hl & Hcells).
  exists out. split; [exact Hrun |]. split.
  - intros i v Hi Hv Hin.
    destruct (Hcells i Hi) as (raw & Hraw & _ & Hcell).
    rewrite Hv in Hraw. inversion Hraw; subst raw.
    destruct (b64_sector_value_in depth_scale v (within_between _ Hin))
      as [Hval Hb].
    split; [| exact Hb]. rewrite Hcell. f_equal. exact Hval.
  - intros -> Hrow. apply all_cells_replicate; [exact Hl |].
    intros i Hi. destruct (Hcells i Hi) as (raw & Hraw & _ & Hcell).
    destruct Hm as (Hwf & Hh & Hw).
    unfold Binary64.sampled_pixel in Hraw.
    rewrite (b64_sample_row_spec depth_mat Hh) in Hraw.
    rewrite Hrow in Hraw by apply (b64_sample_col_spec depth_mat i Hw Hi).
    inversion Hraw; subst raw.
    destruct b64_scenario_values as (_ & E & _). rewrite Hcell, E.
    reflexivity.
Qed.

Lemma in_range_sector_is_truncated_cm_witness :
  Binary64.distances_from_depth_image Binary64.depth_unit_double
    (constant_frame 480 640 2000) distances_init
    (fst Binary64.DEPTH_RANGE) (snd Binary64.DEPTH_RANGE)
  = Some (replicate DISTANCES_ARRAY_LEN 200).
Proof.
  destruct (in_range_sector_is_truncated_cm Binary64.depth_unit_double
              (constant_frame 480 640 2000) distances_init)
    as (out & Hrun & _ & Hall).
  - apply constant_frame_camera; lia.
  - apply distances_init_length.
  - rewrite Hrun. f_equal. apply Hall; [reflexivity |].
    intros c Hc. apply constant_frame_getitem; [| exact Hc].
    split; [apply Z.leb_le | apply Z.ltb_lt]; reflexivity.
Defined.

(** C2, as the specification words it, fails: a pixel of raw value 1999 at
    scale 0.001 is the double 1.999, inside 0.1 m .. 8.0 m; the product
    with 100 rounds to 200, and the function stores 199 in every sector. *)
Lemma in_range_sector_is_not_rounded :
  let depth_mat := constant_frame 480 640 1999 in
  let dist_m := Binary64.dist_m Binary64.depth_unit_double 1999 in
  Binary64.sampled_pixel depth_mat 0 = Some 1999 /\
  Binary64.within dist_m (fst Binary64.DEPTH_RANGE) (snd Binary64.DEPTH_RANGE)
  = true /\
  spec_round (Binary64.to_Q (Binary64.centimetres dist_m)) = 200 /\
  Binary64.distances_from_depth_image Binary64.depth_unit_double depth_mat
    distances_init (fst Binary64.DEPTH_RANGE) (snd Binary64.DEPTH_RANGE)
  = Some (replicate DISTANCES_ARRAY_LEN 199).
Proof.
  split.
  { apply b64_constant_frame_sampled_pixel;
      [lia | lia | unfold DISTANCES_ARRAY_LEN; lia]. }
  split; [vm_compute; reflexivity |].
  split; [vm_compute; reflexivity |].
  rewrite b64_constant_frame_run by (try apply distances_init_length; lia).
  destruct b64_scenario_values as (_ & _ & E). rewrite E. reflexivity.
Qed.

(** ** The range of the array *)

(** C3. On every valid depth frame of 16-bit pixels (at least one row and
    one column, which a width of at least the sector count implies; at
    most 4096 by 4096), with the range of the script and a finite depth
    scale, the function returns an array of exactly
    [DISTANCES_ARRAY_LEN = 72] cells, each within
    [[MIN_DEPTH_CM, MAX_DEPTH_CM + 1]] = [[10, 801]], all on doubles. *)
Theorem distances_within_range (depth_scale : PrimFloat.float)
    (depth_mat : ndarray) (distances : list Z) :
  Binary64.camera_frame depth_mat ->
  Forall (fun raw => 0 <= raw < 65536) (data depth_mat) ->
  Binary64.finite depth_scale = true ->
  length distances = DISTANCES_ARRAY_LEN ->
  exists out,
    Binary64.distances_from_depth_image depth_scale depth_mat distances
      (fst Binary64.DEPTH_RANGE) (snd Binary64.DEPTH_RANGE) = Some out /\
    length out = 72%nat /\
    (forall (i : nat) (v : Z),
       out !! i = Some v ->
       Binary64.MIN_DEPTH_CM <= v <= Binary64.MAX_DEPTH_CM + 1) /\
    Binary64.MIN_DEPTH_CM = 10 /\ Binary64.MAX_DEPTH_CM = 800.
Proof.
  intros Hm Hpix Hs Hd.
  destruct (b64_distances_from_depth_image_spec depth_scale depth_mat
              distances (fst Binary64.DEPTH_RANGE) (snd Binary64.DEPTH_RANGE)
              Hm Hd) as (out & Hrun & Hl & Hcells).
  exists out. split; [exact Hrun |]. split; [exact Hl |].
  split; [| exact b64_constants].
  intros i v Hv.
  assert (Hi : (i < DISTANCES_ARRAY_LEN)%nat).
  { rewrite <- Hl. apply lookup_lt_is_Some. now exists v. }
  destruct (Hcells i Hi) as (raw & _ & Hel & Hcell).
  assert (Hval : v = Binary64.sector_value depth_scale raw
                       (fst Binary64.DEPTH_RANGE) (snd Binary64.DEPTH_RANGE))
    by congruence.
  rewrite Forall_forall in Hpix. specialize (Hpix raw Hel).
  rewrite Hval. destruct b64_constants as [E1 E2].
  destruct (b64_sector_value_cases depth_scale raw Hs Hpix)
    as [[_ Hc] | [_ Hb]]; [rewrite Hc |]; rewrite E1, E2 in *; lia.
Qed.

Lemma distances_within_range_witness :
  exists out,
    Binary64.distances_from_depth_image Binary64.depth_unit_double
      (constant_frame 480 640 2000) distances_init
      (fst Binary64.DEPTH_RANGE) (snd Binary64.DEPTH_RANGE) = Some out /\
    length out = 72%nat /\
    (forall (i : nat) (v : Z),
       out !! i = Some v ->
       Binary64.MIN_DEPTH_CM <= v <= Binary64.MAX_DEPTH_CM + 1) /\
    Binary64.MIN_DEPTH_CM = 10 /\ Binary64.MAX_DEPTH_CM = 800.
Proof.
  apply (distances_within_range Binary64.depth_unit_double
           (constant_frame 480 640 2000) distances_init).
  - apply constant_frame_camera; lia.
  - apply Forall_replicate. lia.
  - vm_compute. reflexivity.
  - apply distances_init_length.
Defined.

(** ** Which pixel a sector reads *)

(** On the script's own width the column is the floor of the exact
    product. *)
Lemma b64_columns_at_WIDTH :
  forallb (fun i : nat =>
             Binary64.sample_col (mk_ndarray 0 WIDTH []) i
             =? Z.of_nat i * WIDTH / 72)
    (seq 0 DISTANCES_ARRAY_LEN) = true.
Proof. vm_compute. reflexivity. Qed.

(** C4, as the code has it.  On every depth frame of width W and height H
    (each from 1 to 4096) and for every sector [i < N], the function reads
    one pixel, the one at row [floor(H / 2)] and column [int(i * step)],
    where [step = W / N] is the quotient of doubles (not the integer
    quotient) and [i * step] their product rounded to a double; that
    column is [floor(i * W / N)] or the one before it, and is
    [floor(i * W / N)] on the script's frames, [WIDTH = 640] wide.  Cell
    [i] of the result depends on that pixel's raw value alone: any other
    frame with the same raw value at its own sampled pixel gives the same
    cell. *)
Theorem sector_reads_one_pixel (depth_scale : PrimFloat.float)
    (depth_mat : ndarray) (distances : list Z) (i : nat) :
  Binary64.camera_frame depth_mat ->
  length distances = DISTANCES_ARRAY_LEN ->
  (i < DISTANCES_ARRAY_LEN)%nat ->
  exists (out : list Z) (raw : Z),
    Binary64.distances_from_depth_image depth_scale depth_mat distances
      (fst Binary64.DEPTH_RANGE) (snd Binary64.DEPTH_RANGE) = Some out /\
    length out = DISTANCES_ARRAY_LEN /\
    getitem depth_mat (shape0 depth_mat / 2)
      (Binary64.int (Binary64.column depth_mat i)) = Some raw /\
    Z.of_nat i * shape1 depth_mat / 72 - 1
    <= Binary64.int (Binary64.column depth_mat i)
    <= Z.of_nat i * shape1 depth_mat / 72 /\
    (shape1 depth_mat = WIDTH ->
     Binary64.int (Binary64.column depth_mat i) = Z.of_nat i * WIDTH / 72) /\
    (forall (depth_mat' : ndarray) (distances' : list Z),
       Binary64.camera_frame depth_mat' ->
       length distances' = DISTANCES_ARRAY_LEN ->
       getitem depth_mat' (shape0 depth_mat' / 2)
         (Binary64.int (Binary64.column depth_mat' i)) = Some raw ->
       exists out',
         Binary64.distances_from_depth_image depth_scale depth_mat'
           distances' (fst Binary64.DEPTH_RANGE) (snd Binary64.DEPTH_RANGE)
         = Some out' /\
         out' !! i = out !! i).
Proof.
  intros Hm Hd Hi.
  destruct (b64_distances_from_depth_image_spec depth_scale depth_mat
              distances (fst Binary64.DEPTH_RANGE) (snd Binary64.DEPTH_RANGE)
              Hm Hd) as (out & Hrun & Hl & Hcells).
  destruct (Hcells i Hi) as (raw & Hraw & _ & Hcell).
  pose proof Hm as (_ & Hh & Hw).
  exists out, raw. split; [exact Hrun |]. split; [exact Hl |]. split.
  { unfold Binary64.sampled_pixel in Hraw.
    rewrite (b64_sample_row_spec depth_mat Hh) in Hraw. exact Hraw. }
  split; [apply (b64_sample_col_spec depth_mat i Hw Hi) |].
  split.
  { intros HW. pose proof b64_columns_at_WIDTH as Hc.
    rewrite forallb_forall in Hc. specialize (Hc i).
    rewrite in_seq in Hc. specialize (Hc ltac:(lia)).
    apply Z.eqb_eq in Hc. rewrite <- Hc.
    unfold Binary64.sample_col, Binary64.column. cbn [shape1]. now rewrite HW. }
  intros m' d' Hm' Hd' Hraw'.
  destruct (b64_distances_from_depth_image_spec depth_scale m' d'
              (fst Binary64.DEPTH_RANGE) (snd Binary64.DEPTH_RANGE)
              Hm' Hd') as (out' & Hrun' & _ & Hcells').
  exists out'. split; [exact Hrun' |].
  destruct (Hcells' i Hi) as (raw' & Hraw'' & _ & Hcell').
  destruct Hm' as (_ & Hh' & _).
  unfold Binary64.sampled_pixel in Hraw''.
  rewrite (b64_sample_row_spec m' Hh') in Hraw''.
  change (Binary64.sample_col m' i) with (Binary64.int (Binary64.column m' i))
    in Hraw''.
  rewrite Hraw' in Hraw''. inversion Hraw''; subst raw'.
  now rewrite Hcell, Hcell'.
Qed.

Lemma sector_reads_one_pixel_witness :
  exists (out : list Z) (raw : Z),
    Binary64.distances_from_depth_image Binary64.depth_unit_double
      (constant_frame 480 640 2000) distances_init
      (fst Binary64.DEPTH_RANGE) (snd Binary64.DEPTH_RANGE) = Some out /\
    length out = DISTANCES_ARRAY_LEN /\
    getitem (constant_frame 480 640 2000)
      (shape0 (constant_frame 480 640 2000) / 2)
      (Binary64.int (Binary64.column (constant_frame 480 640 2000) 71))
    = Some raw /\
    Z.of_nat 71 * shape1 (constant_frame 480 640 2000) / 72 - 1
    <= Binary64.int (Binary64.column (constant_frame 480 640 2000) 71)
    <= Z.of_nat 71 * shape1 (constant_frame 480 640 2000) / 72 /\
    (shape1 (constant_frame 480 640 2000) = WIDTH ->
     Binary64.int (Binary64.column (constant_frame 480 640 2000) 71)
     = Z.of_nat 71 * WIDTH / 72) /\
    (forall (depth_mat' : ndarray) (distances' : list Z),
       Binary64.camera_frame depth_mat' ->
       length distances' = DISTANCES_ARRAY_LEN ->
       getitem depth_mat' (shape0 depth_mat' / 2)
         (Binary64.int (Binary64.column depth_mat' 71)) = Some raw ->
       exists out',
         Binary64.distances_from_depth_image Binary64.depth_unit_double
           depth_mat' distances'
           (fst Binary64.DEPTH_RANGE) (snd Binary64.DEPTH_RANGE)
         = Some out' /\
         out' !! 71%nat = out !! 71%nat).
Proof.
  apply (sector_reads_one_pixel Binary64.depth_unit_double
           (constant_frame 480 640 2000) distances_init 71).
  - apply constant_frame_camera; lia.
  - apply distances_init_length.
  - unfold DISTANCES_ARRAY_LEN. lia.
Defined.

(** C4, as the specification words it, fails on a frame 148 wide: over the
    real numbers [54 * (148 / 72)] is 111, but the double [148 / 72] is a
    little below the quotient and the product a little below 111, so the
    function reads column 110 for sector 54 and stores its 2000 as 200,
    not the 3000 of column 111. *)
Lemma sector_54_of_width_148_reads_column_110 :
  Binary64.camera_frame frame_148 /\
  spec_column frame_148 54 = 111 /\
  Binary64.int (Binary64.column frame_148 54) = 110 /\
  Binary64.sampled_pixel frame_148 54 = Some 2000 /\
  getitem frame_148 (shape0 frame_148 / 2) 111 = Some 3000 /\
  exists out,
    Binary64.distances_from_depth_image Binary64.depth_unit_double frame_148
      distances_init (fst Binary64.DEPTH_RANGE) (snd Binary64.DEPTH_RANGE)
    = Some out /\
    out !! 54%nat = Some 200.
Proof.
  split.
  { split; [unfold ndarray_wf; cbn; lia |].
    unfold Binary64.MAX_SIDE. cbn. lia. }
  split; [vm_compute; reflexivity |].
  split; [vm_compute; reflexivity |].
  split; [vm_compute; reflexivity |].
  split; [vm_compute; reflexivity |].
  eexists. split; vm_compute; reflexivity.
Qed.

(** The step is not the integer quotient: on a frame 640 wide the last
    sector reads column 631, where [71 * (640 // 72)] would be 568. *)
Example step_is_the_real_quotient :
  Binary64.sample_col (constant_frame 480 640 0) 71 = 631 /\
  71 * (640 / 72) = 568.
Proof. split; vm_compute; reflexivity. Qed.

(** ** Frames the specification wants refused *)

(** C5, as the code has it.  The function checks nothing about the frame
    and has no error result of its own: on every frame with at least one
    row and one column (up to 4096 by 4096), whatever its width is against
    the sector count, it returns, and it overwrites all [N] cells: the
    result has [N] cells and does not depend on what the array held
    before.  (Frames with no row or no column are left out.) *)
Theorem every_nonempty_frame_is_processed (depth_scale : PrimFloat.float)
    (depth_mat : ndarray) (distances distances' : list Z)
    (min_depth_m max_depth_m : PrimFloat.float) :
  Binary64.camera_frame depth_mat ->
  length distances = DISTANCES_ARRAY_LEN ->
  length distances' = DISTANCES_ARRAY_LEN ->
  exists out,
    Binary64.distances_from_depth_image depth_scale depth_mat distances
      min_depth_m max_depth_m = Some out /\
    Binary64.distances_from_depth_image depth_scale depth_mat distances'
      min_depth_m max_depth_m = Some out /\
    length out = DISTANCES_ARRAY_LEN.
Proof.
  intros Hm Hd Hd'.
  destruct (b64_distances_from_depth_image_spec depth_scale depth_mat
              distances min_depth_m max_depth_m Hm Hd)
    as (out & Hrun & Hl & Hcells).
  destruct (b64_distances_from_depth_image_spec depth_scale depth_mat
              distances' min_depth_m max_depth_m Hm Hd')
    as (out' & Hrun' & Hl' & Hcells').
  exists out. split; [exact Hrun |]. split; [| exact Hl].
  rewrite Hrun'. f_equal. apply list_eq. intros i.
  destruct (Nat.lt_ge_cases i DISTANCES_ARRAY_LEN) as [Hi | Hi].
  - destruct (Hcells i Hi) as (raw & Hraw & _ & ->).
    destruct (Hcells' i Hi) as (raw' & Hraw' & _ & ->).
    congruence.
  - rewrite !lookup_ge_None_2 by lia. reflexivity.
Qed.

Lemma every_nonempty_frame_is_processed_witness :
  exists out,
    Binary64.distances_from_depth_image Binary64.depth_unit_double
      (constant_frame 1 1 2000) distances_init
      (fst Binary64.DEPTH_RANGE) (snd Binary64.DEPTH_RANGE) = Some out /\
    Binary64.distances_from_depth_image Binary64.depth_unit_double
      (constant_frame 1 1 2000) (replicate 72 0)
      (fst Binary64.DEPTH_RANGE) (snd Binary64.DEPTH_RANGE) = Some out /\
    length out = DISTANCES_ARRAY_LEN.
Proof.
  apply (every_nonempty_frame_is_processed Binary64.depth_unit_double
           (constant_frame 1 1 2000) distances_init (replicate 72 0)
           (fst Binary64.DEPTH_RANGE) (snd Binary64.DEPTH_RANGE)).
  - apply constant_frame_camera; lia.
  - apply distances_init_length.
  - reflexivity.
Defined.

(** C5, as the specification words it, fails: a frame of one row and one
    column is narrower than the 72 sectors, yet the function returns, and
    it has replaced the 72 initial sentinels 801 by 200. *)
Lemma narrow_frame_is_processed :
  let depth_mat := constant_frame 1 1 2000 in
  spec_invalid_frame depth_mat /\
  distances_init = replicate 72 801 /\
  Binary64.distances_from_depth_image Binary64.depth_unit_double depth_mat
    distances_init (fst Binary64.DEPTH_RANGE) (snd Binary64.DEPTH_RANGE)
  = Some (replicate 72 200).
Proof.
  split; [right; right; reflexivity |].
  split; [reflexivity |].
  vm_compute. reflexivity.
Qed.

(** ** Re-running the function *)

(** C9. The result is a function of the frame, the depth scale and the
    range bounds alone: from any two output arrays of [N] cells the function
    returns the same array, and run again over its own result it returns
    that array once more (every cell is overwritten). *)
Theorem extraction_is_idempotent (depth_scale : Q)
    (depth_mat : ndarray) (distances1 distances2 : list Z)
    (min_depth_m max_depth_m : Q) :
  ndarray_wf depth_mat -> 0 < shape0 depth_mat -> 0 < shape1 depth_mat ->
  length distances1 = DISTANCES_ARRAY_LEN ->
  length distances2 = DISTANCES_ARRAY_LEN ->
  exists out,
    distances_from_depth_image depth_scale depth_mat distances1
      min_depth_m max_depth_m = Some out /\
    distances_from_depth_image depth_scale depth_mat distances2
      min_depth_m max_depth_m = Some out /\
    distances_from_depth_image depth_scale depth_mat out
      min_depth_m max_depth_m = Some out.
Proof.
  intros Hwf H0 H1 Hd1 Hd2.
  destruct (distances_from_depth_image_spec depth_scale depth_mat distances1
              min_depth_m max_depth_m Hwf H0 H1 Hd1)
    as (out & Hrun & Hl & Hcells).
  assert (Hsame : forall d, length d = DISTANCES_ARRAY_LEN ->
            distances_from_depth_image depth_scale depth_mat d
              min_depth_m max_depth_m = Some out).
  { intros d Hd.
    destruct (distances_from_depth_image_spec depth_scale depth_mat d
                min_depth_m max_depth_m Hwf H0 H1 Hd)
      as (out' & Hrun' & Hl' & Hcells').
    rewrite Hrun'. f_equal. apply list_eq. intros i.
    destruct (Nat.lt_ge_cases i DISTANCES_ARRAY_LEN) as [Hi | Hi].
    - destruct (Hcells i Hi) as (raw & Hraw & Hcell).
      destruct (Hcells' i Hi) as (raw' & Hraw' & Hcell').
      rewrite Hraw in Hraw'. inversion Hraw'; subst raw'.
      now rewrite Hcell, Hcell'.
    - rewrite (lookup_ge_None_2 out') by lia.
      symmetry. apply lookup_ge_None_2. lia. }
  exists out. split; [exact Hrun |]. split; [now apply Hsame |].
  now apply Hsame.
Qed.

Lemma extraction_is_idempotent_witness :
  exists out,
    distances_from_depth_image 0.001 (constant_frame 480 640 2000)
      distances_init (fst DEPTH_RANGE) (snd DEPTH_RANGE) = Some out /\
    distances_from_depth_image 0.001 (constant_frame 480 640 2000)
      (replicate 72 0) (fst DEPTH_RANGE) (snd DEPTH_RANGE) = Some out /\
    distances_from_depth_image 0.001 (constant_frame 480 640 2000)
      out (fst DEPTH_RANGE) (snd DEPTH_RANGE) = Some out.
Proof.
  apply (extraction_is_idempotent 0.001 (constant_frame 480 640 2000)
           distances_init (replicate 72 0)
           (fst DEPTH_RANGE) (snd DEPTH_RANGE)).
  - apply constant_frame_wf.
  - reflexivity.
  - reflexivity.
  - apply distances_init_length.
  - reflexivity.
Defined.

(** ** A scheduler tick before the first frame *)

(** C6, as the code has it.  The globals are never "not ready": before any
    frame has been processed the array holds [N] sentinels
    [MAX_DEPTH_CM + 1] and the timestamp is 0, and a firing of either job
    in any state, this one included, hands exactly one message to the
    vehicle link; for the obstacle-distance job in the initial state it is
    the message carrying those sentinels and timestamp 0. *)
Theorem every_tick_emits_one_message (j : job) (g : globals)
    (link : list mavlink_message) :
  (exists msg, run_job j g link = link ++ [msg]) /\
  g_distances globals_init
  = replicate DISTANCES_ARRAY_LEN (MAX_DEPTH_CM + 1) /\
  g_current_time_us globals_init = 0 /\
  run_job job_obstacle_distance globals_init link
  = link ++ [OBSTACLE_DISTANCE 0 0
               (replicate DISTANCES_ARRAY_LEN (MAX_DEPTH_CM + 1)) 0
               MIN_DEPTH_CM MAX_DEPTH_CM INCREMENT_F ANGLE_OFFSET 12].
Proof.
  split.
  - destruct j; simpl;
      unfold send_obstacle_distance_message, send_distance_sensor_message;
      eexists; reflexivity.
  - repeat split.
Qed.

(** C6, as the specification words it, fails: the first tick on a silent
    link, before any frame, leaves one message on it, and the message
    carries the 72 initial values 801. *)
Lemma tick_before_first_frame_emits_a_message :
  length (run_job job_obstacle_distance globals_init []) = 1%nat /\
  run_job job_obstacle_distance globals_init []
  = [OBSTACLE_DISTANCE 0 0 (replicate 72 801) 0 10 800
       INCREMENT_F ANGLE_OFFSET 12] /\
  length (run_job job_distance_sensor globals_init []) = 1%nat.
Proof. repeat split. Qed.

(** ** Nothing enabled at start-up *)

(** C7, as the code has it.  With neither message enabled the scheduler
    has been started (line 392 precedes the test) and holds no job; the
    process sends the status text "Nothing to do. Check params to enable
    something" to the ground station, prints it, stops the camera pipe,
    closes the vehicle, and leaves through [sys.exit()] with exit
    status 0. *)
Theorem nothing_enabled_closes_and_exits (obstacle_distance_msg_hz : Q)
    (sent : list mavlink_message) (printed : list string) :
  let p := start_publishing false false obstacle_distance_msg_hz
             (process_connected sent printed) in
  sched_running p = true /\
  sched_jobs p = [] /\
  link p
  = sent ++ [STATUSTEXT 6
               "D4xx: Nothing to do. Check params to enable something"] /\
  console p
  = printed ++ ["INFO: Nothing to do. Check params to enable something"%string;
                "INFO: Realsense pipe and vehicle object closed."%string] /\
  pipe_streaming p = false /\
  vehicle_open p = false /\
  exit_status p = Some 0.
Proof.
  simpl. repeat split. now rewrite <- app_assoc.
Qed.

(** C7, as the specification words it, fails: at the default rate with
    nothing enabled the scheduler is running when the process leaves, and
    the exit status is 0, the status of success. *)
Lemma nothing_enabled_exit_status_is_zero :
  let p := start_publishing false false 15 (process_connected [] []) in
  sched_running p = true /\ exit_status p = Some 0.
Proof. split; reflexivity. Qed.

(** A job is scheduled exactly when one of the two flags is set, the
    obstacle-distance one first. *)
Lemma enabled_job_is_scheduled (enable_ds : bool) (hz : Q)
    (sent : list mavlink_message) (printed : list string) :
  sched_jobs (start_publishing true enable_ds hz (process_connected sent printed))
  = [(job_obstacle_distance, (1 / hz)%Q)] /\
  sched_jobs (start_publishing false true hz (process_connected sent printed))
  = [(job_distance_sensor, (1 / hz)%Q)] /\
  exit_status (start_publishing true enable_ds hz (process_connected sent printed))
  = None.
Proof. repeat split. Qed.

(** ** Sector geometry *)

(** C8, as the code has it.  [ANGLE_OFFSET] is minus half the field of
    view, and [ANGLE_OFFSET + N * INCREMENT_F] is plus half the field of
    view: the [N] increments add up to the field of view, from its left edge
    to its right edge. *)
Theorem sector_geometry :
  (ANGLE_OFFSET == - (HFOV / 2))%Q /\
  (ANGLE_OFFSET + float_of_nat DISTANCES_ARRAY_LEN * INCREMENT_F
   == HFOV / 2)%Q /\
  (float_of_nat DISTANCES_ARRAY_LEN * INCREMENT_F == HFOV)%Q.
Proof. repeat split. Qed.

(** C8, as the specification words it, fails: the offset plus the 72
    increments is 43.5 degrees, which is not the field of view of 87. *)
Lemma offset_plus_increments_is_half_the_view :
  (ANGLE_OFFSET + float_of_nat DISTANCES_ARRAY_LEN * INCREMENT_F == 43.5)%Q /\
  (43.5 < HFOV)%Q /\
  ~ (ANGLE_OFFSET + float_of_nat DISTANCES_ARRAY_LEN * INCREMENT_F == HFOV)%Q.
Proof.
  split; [reflexivity |]. split; [reflexivity |]. discriminate.
Qed.

(** ** The scenarios on IEEE doubles *)

(** The constants of lines 57-61 as the interpreter computes them. *)
Example binary64_constants :
  Binary64.MIN_DEPTH_CM = 10 /\ Binary64.MAX_DEPTH_CM = 800 /\
  Binary64.ANGLE_OFFSET = PrimFloat.opp Binary64.half_view /\
  Binary64.span_end = Binary64.half_view.
Proof. repeat apply conj; vm_compute; reflexivity. Qed.

(** The three raw values of the scenarios: 2000 gives 200, 9000 the
    sentinel 801, and 1999 gives 199 where rounding to nearest would give
    200; at both representations of the camera's depth unit. *)
Example binary64_scenarios :
  Binary64.sector_value Binary64.depth_unit_double 2000
    (fst Binary64.DEPTH_RANGE) (snd Binary64.DEPTH_RANGE) = 200 /\
  Binary64.sector_value Binary64.depth_unit_double 9000
    (fst Binary64.DEPTH_RANGE) (snd Binary64.DEPTH_RANGE) = 801 /\
  Binary64.sector_value Binary64.depth_unit_double 1999
    (fst Binary64.DEPTH_RANGE) (snd Binary64.DEPTH_RANGE) = 199 /\
  Binary64.sector_value Binary64.depth_unit_single 2000
    (fst Binary64.DEPTH_RANGE) (snd Binary64.DEPTH_RANGE) = 200 /\
  Binary64.sector_value Binary64.depth_unit_single 9000
    (fst Binary64.DEPTH_RANGE) (snd Binary64.DEPTH_RANGE) = 801 /\
  Binary64.sector_value Binary64.depth_unit_single 1999
    (fst Binary64.DEPTH_RANGE) (snd Binary64.DEPTH_RANGE) = 199.
Proof. repeat apply conj; vm_compute; reflexivity. Qed.

(** The whole function on full camera frames. *)
Example binary64_frames :
  Binary64.distances_from_depth_image Binary64.depth_unit_double
    (constant_frame 480 640 2000) distances_init
    (fst Binary64.DEPTH_RANGE) (snd Binary64.DEPTH_RANGE)
  = Some (replicate 72 200) /\
  Binary64.distances_from_depth_image Binary64.depth_unit_double
    (constant_frame 480 640 9000) distances_init
    (fst Binary64.DEPTH_RANGE) (snd Binary64.DEPTH_RANGE)
  = Some (replicate 72 801) /\
  Binary64.distances_from_depth_image Binary64.depth_unit_double
    (constant_frame 1 1 2000) distances_init
    (fst Binary64.DEPTH_RANGE) (snd Binary64.DEPTH_RANGE)
  = Some (replicate 72 200).
Proof. repeat apply conj; vm_compute; reflexivity. Qed.

(** At the camera's depth unit every one of the 65536 raw values is
    converted to a value within [[MIN_DEPTH_CM, MAX_DEPTH_CM + 1]]. *)
Example binary64_range :
  Binary64.all_raw Binary64.depth_unit_double
    (fun _ v => (10 <=? v) && (v <=? 801)) = true /\
  Binary64.all_raw Binary64.depth_unit_single
    (fun _ v => (10 <=? v) && (v <=? 801)) = true.
Proof. repeat apply conj; vm_compute; reflexivity. Qed.

(** On the camera's width, and on that width halved by the decimation
    filter, the columns computed on doubles are the exact floors. *)
Example binary64_columns :
  forallb (fun i => Binary64.sample_col (constant_frame 1 640 0) i
                    =? sample_col (constant_frame 1 640 0) i)
    (seq 0 DISTANCES_ARRAY_LEN) = true /\
  forallb (fun i => Binary64.sample_col (constant_frame 1 320 0) i
                    =? sample_col (constant_frame 1 320 0) i)
    (seq 0 DISTANCES_ARRAY_LEN) = true /\
  Binary64.sample_row (constant_frame 480 1 0) = 240.
Proof. repeat apply conj; vm_compute; reflexivity. Qed.

(** The rational model is an idealisation: where the exact product is an
    integer the double can fall just below it, and the stored value is one
    less (0.29 m is stored as 28 cm). *)
Example binary64_differs_by_rounding :
  Binary64.sector_value Binary64.depth_unit_double 290
    (fst Binary64.DEPTH_RANGE) (snd Binary64.DEPTH_RANGE) = 28 /\
  sector_value 0.001 290 (fst DEPTH_RANGE) (snd DEPTH_RANGE) = 29.
Proof. repeat apply conj; vm_compute; reflexivity. Qed.

(** * Further properties of the script *)

(** ** The stored value as a function of the distance *)

Lemma depth_range_ok :
  (0 <= fst DEPTH_RANGE)%Q /\ (fst DEPTH_RANGE <= snd DEPTH_RANGE)%Q /\
  (snd DEPTH_RANGE * 100 + 1 < 65536)%Q.
Proof. repeat split; discriminate. Qed.

Lemma sector_value_bounds (depth_scale : Q) (raw : Z) (mn mx : Q) :
  (0 <= mn)%Q -> (mn <= mx)%Q -> (mx * 100 + 1 < 65536)%Q ->
  int (mn * 100) <= sector_value depth_scale raw mn mx <= int (mx * 100) + 1.
Proof.
  intros Hmn Hle Hfit.
  assert (Hmx : (0 <= mx)%Q) by (eapply Qle_trans; eassumption).
  assert (Hbounds : int (mn * 100) <= int (mx * 100)).
  { rewrite !int_nonneg by now apply Qmult_100_nonneg.
    apply Qfloor_resp_le. now apply Qmult_100_le. }
  destruct (sector_value_cases depth_scale raw mn mx) as [Hout | [Hlo Hhi]].
  - rewrite sector_value_out_of_range by exact Hout.
    rewrite sentinel_value by assumption. lia.
  - rewrite sector_value_in_range by assumption.
    destruct (in_range_value depth_scale raw mn mx Hmn Hfit Hlo Hhi)
      as [-> Hb]. lia.
Qed.

Lemma sector_value_in_range_le (depth_scale : Q) (raw : Z) (mn mx : Q) :
  (0 <= mn)%Q -> (mx * 100 + 1 < 65536)%Q ->
  (mn <= float_of_int raw * depth_scale)%Q ->
  (float_of_int raw * depth_scale <= mx)%Q ->
  sector_value depth_scale raw mn mx <= int (mx * 100).
Proof.
  intros Hmn Hfit Hlo Hhi.
  rewrite sector_value_in_range by assumption.
  destruct (in_range_value depth_scale raw mn mx Hmn Hfit Hlo Hhi)
    as [-> Hb]. lia.
Qed.

(** X1.  The sentinel marks the out-of-range pixels and no others.  With
    the range of the script, a finite depth scale and 16-bit pixels, cell
    [i] of the array the function returns is the sentinel
    [MAX_DEPTH_CM + 1] exactly when the test of line 366 is true of sector
    [i]'s pixel on doubles: a distance the test lets through is stored as
    [MAX_DEPTH_CM] at most, never as the sentinel. *)
Theorem sentinel_iff_out_of_range (depth_scale : PrimFloat.float)
    (depth_mat : ndarray) (distances : list Z) :
  Binary64.camera_frame depth_mat ->
  Forall (fun raw => 0 <= raw < 65536) (data depth_mat) ->
  Binary64.finite depth_scale = true ->
  length distances = DISTANCES_ARRAY_LEN ->
  exists out,
    Binary64.distances_from_depth_image depth_scale depth_mat distances
      (fst Binary64.DEPTH_RANGE) (snd Binary64.DEPTH_RANGE) = Some out /\
    (forall (i : nat) (v : Z),
       (i < DISTANCES_ARRAY_LEN)%nat ->
       Binary64.sampled_pixel depth_mat i = Some v ->
       (out !! i = Some (Binary64.MAX_DEPTH_CM + 1) <->
        Binary64.out_of_range (Binary64.dist_m depth_scale v)
          (fst Binary64.DEPTH_RANGE) (snd Binary64.DEPTH_RANGE) = true)).
Proof.
  intros Hm Hpix Hs Hd.
  destruct (b64_distances_from_depth_image_spec depth_scale depth_mat
              distances (fst Binary64.DEPTH_RANGE) (snd Binary64.DEPTH_RANGE)
              Hm Hd) as (out & Hrun & Hl & Hcells).
  exists out. split; [exact Hrun |].
  intros i v Hi Hv.
  destruct (Hcells i Hi) as (raw & Hraw & Hel & Hcell).
  rewrite Hv in Hraw. inversion Hraw; subst raw.
  rewrite Forall_forall in Hpix. specialize (Hpix v Hel).
  rewrite Hcell.
  destruct (b64_sector_value_cases depth_scale v Hs Hpix)
    as [[Ho Hc] | [Ho Hb]].
  - rewrite Hc, Ho. split; reflexivity.
  - rewrite Ho. split; [| discriminate].
    intros Heq.
    assert (Hval : Binary64.sector_value depth_scale v
                     (fst Binary64.DEPTH_RANGE) (snd Binary64.DEPTH_RANGE)
                   = Binary64.MAX_DEPTH_CM + 1) by congruence.
    lia.
Qed.

Lemma sentinel_iff_out_of_range_witness :
  exists out,
    Binary64.distances_from_depth_image Binary64.depth_unit_double
      (constant_frame 480 640 8000) distances_init
      (fst Binary64.DEPTH_RANGE) (snd Binary64.DEPTH_RANGE) = Some out /\
    (forall (i : nat) (v : Z),
       (i < DISTANCES_ARRAY_LEN)%nat ->
       Binary64.sampled_pixel (constant_frame 480 640 8000) i = Some v ->
       (out !! i = Some (Binary64.MAX_DEPTH_CM + 1) <->
        Binary64.out_of_range (Binary64.dist_m Binary64.depth_unit_double v)
          (fst Binary64.DEPTH_RANGE) (snd Binary64.DEPTH_RANGE) = true)).
Proof.
  apply (sentinel_iff_out_of_range Binary64.depth_unit_double
           (constant_frame 480 640 8000) distances_init).
  - apply constant_frame_camera; lia.
  - apply Forall_replicate. lia.
  - vm_compute. reflexivity.
  - apply distances_init_length.
Defined.

(** X2.  Nearer pixels give smaller cells.  With a non-negative depth scale,
    of two sectors whose pixels are both in range the one with the smaller
    raw value holds the smaller (or the same) number of centimetres. *)
Theorem in_range_cells_are_monotone (depth_scale : Q)
    (depth_mat : ndarray) (distances : list Z) (min_depth_m max_depth_m : Q) :
  ndarray_wf depth_mat -> 0 < shape0 depth_mat -> 0 < shape1 depth_mat ->
  length distances = DISTANCES_ARRAY_LEN ->
  (0 <= depth_scale)%Q ->
  (0 <= min_depth_m)%Q -> (max_depth_m * 100 + 1 < 65536)%Q ->
  exists out,
    distances_from_depth_image depth_scale depth_mat distances
      min_depth_m max_depth_m = Some out /\
    (forall (i j : nat) (v w : Z),
       (i < DISTANCES_ARRAY_LEN)%nat -> (j < DISTANCES_ARRAY_LEN)%nat ->
       sampled_pixel depth_mat i = Some v ->
       sampled_pixel depth_mat j = Some w ->
       (min_depth_m <= float_of_int v * depth_scale)%Q ->
       (float_of_int v * depth_scale <= max_depth_m)%Q ->
       (min_depth_m <= float_of_int w * depth_scale)%Q ->
       (float_of_int w * depth_scale <= max_depth_m)%Q ->
       v <= w ->
       exists a b, out !! i = Some a /\ out !! j = Some b /\ a <= b).
Proof.
  intros Hwf H0 H1 Hd Hs Hmn Hfit.
  destruct (distances_from_depth_image_spec depth_scale depth_mat distances
              min_depth_m max_depth_m Hwf H0 H1 Hd)
    as (out & Hrun & _ & Hcells).
  exists out. split; [exact Hrun |].
  intros i j v w Hi Hj Hv Hw Hvlo Hvhi Hwlo Hwhi Hvw.
  destruct (Hcells i Hi) as (raw & Hraw & Hcell).
  rewrite Hv in Hraw. inversion Hraw; subst raw.
  destruct (Hcells j Hj) as (raw & Hraw' & Hcell').
  rewrite Hw in Hraw'. inversion Hraw'; subst raw.
  eexists _, _. split; [exact Hcell |]. split; [exact Hcell' |].
  rewrite !sector_value_in_range by assumption.
  destruct (in_range_value depth_scale v min_depth_m max_depth_m
              Hmn Hfit Hvlo Hvhi) as [-> _].
  destruct (in_range_value depth_scale w min_depth_m max_depth_m
              Hmn Hfit Hwlo Hwhi) as [-> _].
  apply Qfloor_resp_le. apply Qmult_100_le.
  apply Qmult_le_compat_r; [| exact Hs].
  unfold float_of_int. now rewrite <- Zle_Qle.
Qed.

Lemma in_range_cells_are_monotone_witness :
  exists out,
    distances_from_depth_image 0.001 (mk_ndarray 1 2 [1000; 2000])
      distances_init (fst DEPTH_RANGE) (snd DEPTH_RANGE) = Some out /\
    (forall (i j : nat) (v w : Z),
       (i < DISTANCES_ARRAY_LEN)%nat -> (j < DISTANCES_ARRAY_LEN)%nat ->
       sampled_pixel (mk_ndarray 1 2 [1000; 2000]) i = Some v ->
       sampled_pixel (mk_ndarray 1 2 [1000; 2000]) j = Some w ->
       (fst DEPTH_RANGE <= float_of_int v * 0.001)%Q ->
       (float_of_int v * 0.001 <= snd DEPTH_RANGE)%Q ->
       (fst DEPTH_RANGE <= float_of_int w * 0.001)%Q ->
       (float_of_int w * 0.001 <= snd DEPTH_RANGE)%Q ->
       v <= w ->
       exists a b, out !! i = Some a /\ out !! j = Some b /\ a <= b).
Proof.
  apply (in_range_cells_are_monotone 0.001 (mk_ndarray 1 2 [1000; 2000])
           distances_init (fst DEPTH_RANGE) (snd DEPTH_RANGE)).
  - repeat split; discriminate.
  - reflexivity.
  - reflexivity.
  - apply distances_init_length.
  - discriminate.
  - discriminate.
  - reflexivity.
Defined.

(** ** The sampled columns across the frame *)

(** X3.  Sector 0 reads column 0 and the columns never go back as [i] grows.
    On a frame at least [N] wide they strictly increase, so the [N] sectors
    read [N] different pixels; on a narrower frame every column of the
    centre row is read by some sector. *)
Theorem sampled_columns (depth_mat : ndarray) :
  0 < shape1 depth_mat ->
  sample_col depth_mat 0 = 0 /\
  (forall i j : nat, (i <= j)%nat ->
     sample_col depth_mat i <= sample_col depth_mat j) /\
  (Z.of_nat DISTANCES_ARRAY_LEN <= shape1 depth_mat ->
   forall i j : nat, (i < j)%nat ->
     sample_col depth_mat i < sample_col depth_mat j) /\
  (shape1 depth_mat <= Z.of_nat DISTANCES_ARRAY_LEN ->
   forall c : Z, 0 <= c < shape1 depth_mat ->
     exists i : nat,
       (i < DISTANCES_ARRAY_LEN)%nat /\ sample_col depth_mat i = c).
Proof.
  intros HW. unfold DISTANCES_ARRAY_LEN.
  split; [rewrite sample_col_div by lia; reflexivity |].
  split; [| split].
  - intros i j Hij. rewrite !sample_col_div by lia.
    apply Z.div_le_mono; nia.
  - intros Hwide i j Hij. rewrite !sample_col_div by lia.
    apply Z.lt_le_trans with ((Z.of_nat i * shape1 depth_mat + 1 * 72) / 72).
    + rewrite Z.div_add by lia. lia.
    + apply Z.div_le_mono; nia.
  - intros Hnarrow c Hc.
    set (W := shape1 depth_mat) in *.
    exists (Z.to_nat ((72 * c + W - 1) / W)).
    assert (Hlo : 0 <= (72 * c + W - 1) / W) by (apply Z.div_pos; lia).
    assert (Hq : W * ((72 * c + W - 1) / W) <= 72 * c + W - 1)
      by (apply Z.mul_div_le; lia).
    assert (Hr : 72 * c + W - 1 < W * ((72 * c + W - 1) / W) + W).
    { pose proof (Z.mod_pos_bound (72 * c + W - 1) W ltac:(lia)).
      pose proof (Z.div_mod (72 * c + W - 1) W ltac:(lia)). lia. }
    split.
    + apply Nat2Z.inj_lt. rewrite Z2Nat.id by exact Hlo.
      change (Z.of_nat 72) with 72.
      apply Z.div_lt_upper_bound; nia.
    + rewrite sample_col_div by lia. fold W.
      rewrite Z2Nat.id by exact Hlo.
      symmetry. apply Z.div_unique with
        ((72 * c + W - 1) / W * W - 72 * c); nia.
Qed.

Lemma sampled_columns_witness :
  sample_col (constant_frame 480 640 0) 0 = 0 /\
  (forall i j : nat, (i <= j)%nat ->
     sample_col (constant_frame 480 640 0) i
     <= sample_col (constant_frame 480 640 0) j) /\
  (Z.of_nat DISTANCES_ARRAY_LEN <= 640 ->
   forall i j : nat, (i < j)%nat ->
     sample_col (constant_frame 480 640 0) i
     < sample_col (constant_frame 480 640 0) j) /\
  (640 <= Z.of_nat DISTANCES_ARRAY_LEN ->
   forall c : Z, 0 <= c < 640 ->
     exists i : nat,
       (i < DISTANCES_ARRAY_LEN)%nat /\
       sample_col (constant_frame 480 640 0) i = c).
Proof.
  apply (sampled_columns (constant_frame 480 640 0)). reflexivity.
Defined.

(** ** Which cells are written, and when a read leaves the matrix *)

(** X4.  The function writes cells 0 to [N - 1] and no other: on an array of
    [N] cells or more it returns an array of the same length whose first
    [N] cells are the conversions of the [N] sampled pixels and whose
    cells from [N] on are the ones it was given. *)
Theorem cells_beyond_N_are_kept (depth_scale : Q)
    (depth_mat : ndarray) (distances : list Z) (min_depth_m max_depth_m : Q) :
  ndarray_wf depth_mat -> 0 < shape0 depth_mat -> 0 < shape1 depth_mat ->
  (DISTANCES_ARRAY_LEN <= length distances)%nat ->
  exists out,
    distances_from_depth_image depth_scale depth_mat distances
      min_depth_m max_depth_m = Some out /\
    length out = length distances /\
    (forall i, (i < DISTANCES_ARRAY_LEN)%nat ->
       exists raw, sampled_pixel depth_mat i = Some raw /\
         out !! i
         = Some (sector_value depth_scale raw min_depth_m max_depth_m)) /\
    drop DISTANCES_ARRAY_LEN out = drop DISTANCES_ARRAY_LEN distances.
Proof.
  intros Hwf H0 H1 Hd. unfold distances_from_depth_image.
  destruct (for_range_seq depth_scale depth_mat min_depth_m max_depth_m
              DISTANCES_ARRAY_LEN 0 distances)
    as (out & Hrun & Hl & Hin & Hout).
  - lia.
  - intros i Hi. apply sampled_pixel_is_Some; [assumption .. | lia].
  - exists out. split; [exact Hrun |]. split; [exact Hl |]. split.
    + intros i Hi. apply Hin. lia.
    + apply list_eq. intros i. rewrite !lookup_drop. apply Hout. lia.
Qed.

Lemma cells_beyond_N_are_kept_witness :
  distances_from_depth_image 0.001 (constant_frame 480 640 2000)
    (replicate 72 0 ++ [7; 8; 9]) (fst DEPTH_RANGE) (snd DEPTH_RANGE)
  = Some (replicate 72 200 ++ [7; 8; 9]).
Proof.
  destruct (cells_beyond_N_are_kept 0.001 (constant_frame 480 640 2000)
              (replicate 72 0 ++ [7; 8; 9])
              (fst DEPTH_RANGE) (snd DEPTH_RANGE))
    as (out & Hrun & Hl & Hcells & Hrest).
  - apply constant_frame_wf.
  - reflexivity.
  - reflexivity.
  - unfold DISTANCES_ARRAY_LEN. simpl. lia.
  - rewrite Hrun. f_equal.
    rewrite <- (take_drop DISTANCES_ARRAY_LEN out), Hrest. f_equal.
    apply all_cells_replicate.
    + rewrite length_take, Hl. reflexivity.
    + intros i Hi. rewrite lookup_take_lt by exact Hi.
      destruct (Hcells i Hi) as (raw & Hraw & ->).
      rewrite constant_frame_sampled_pixel in Hraw by (try lia; exact Hi).
      inversion Hraw; subst raw. reflexivity.
Defined.

(** X5.  On a well-formed frame the reads of line 365 stay inside the matrix
    unless the frame has no row or no column: the function has a result on
    an array of [N] cells exactly when both dimensions are at least 1 (the
    compiled code does not check the index, and the model gives the read
    outside the matrix no result). *)
Theorem result_iff_frame_not_empty (depth_scale : Q)
    (depth_mat : ndarray) (distances : list Z) (min_depth_m max_depth_m : Q) :
  ndarray_wf depth_mat ->
  length distances = DISTANCES_ARRAY_LEN ->
  (distances_from_depth_image depth_scale depth_mat distances
     min_depth_m max_depth_m = None
   <-> shape0 depth_mat = 0 \/ shape1 depth_mat = 0) /\
  (sampled_pixel depth_mat 0 = None
   <-> shape0 depth_mat = 0 \/ shape1 depth_mat = 0).
Proof.
  intros Hwf Hd. pose proof Hwf as (Hs0 & Hs1 & _).
  assert (Hpix : sampled_pixel depth_mat 0 = None
                 <-> shape0 depth_mat = 0 \/ shape1 depth_mat = 0).
  { split.
    - intros Hnone.
      destruct (Z.eq_dec (shape0 depth_mat) 0) as [|Hn0]; [now left |].
      destruct (Z.eq_dec (shape1 depth_mat) 0) as [|Hn1]; [now right |].
      destruct (sampled_pixel_is_Some depth_mat 0 Hwf) as [v Hv];
        [lia | lia | unfold DISTANCES_ARRAY_LEN; lia |]. congruence.
    - intros Hzero. unfold sampled_pixel, getitem.
      rewrite sample_row_div, sample_col_div by lia.
      destruct Hzero as [-> | ->]; simpl.
      + reflexivity.
      + rewrite !andb_false_r. reflexivity. }
  split; [| exact Hpix]. split.
  - intros Hnone.
    destruct (Z.eq_dec (shape0 depth_mat) 0) as [|Hn0]; [now left |].
    destruct (Z.eq_dec (shape1 depth_mat) 0) as [|Hn1]; [now right |].
    destruct (distances_from_depth_image_spec depth_scale depth_mat
                distances min_depth_m max_depth_m Hwf) as (out & Hrun & _);
      [lia | lia | exact Hd |]. congruence.
  - intros Hzero. apply Hpix in Hzero.
    unfold distances_from_depth_image, DISTANCES_ARRAY_LEN.
    cbn [seq for_range]. unfold loop_body. now rewrite Hzero.
Qed.

Lemma result_iff_frame_not_empty_witness :
  (distances_from_depth_image 0.001 (constant_frame 0 640 0) distances_init
     (fst DEPTH_RANGE) (snd DEPTH_RANGE) = None
   <-> shape0 (constant_frame 0 640 0) = 0
       \/ shape1 (constant_frame 0 640 0) = 0) /\
  (sampled_pixel (constant_frame 0 640 0) 0 = None
   <-> shape0 (constant_frame 0 640 0) = 0
       \/ shape1 (constant_frame 0 640 0) = 0).
Proof.
  apply (result_iff_frame_not_empty 0.001 (constant_frame 0 640 0)
           distances_init (fst DEPTH_RANGE) (snd DEPTH_RANGE)).
  - apply constant_frame_wf.
  - apply distances_init_length.
Defined.

(** ** The forward distance *)

Lemma sum_bounds (lo hi : Z) (l : list Z) :
  Forall (fun v => lo <= v <= hi) l ->
  Z.of_nat (length l) * lo <= foldr Z.add 0 l <= Z.of_nat (length l) * hi.
Proof.
  induction 1 as [| v l Hv _ IH]; simpl length; simpl foldr; [lia |].
  rewrite Nat2Z.inj_succ. lia.
Qed.

Lemma int_mean (l : list Z) :
  l <> [] -> 0 <= foldr Z.add 0 l ->
  int (mean l) = foldr Z.add 0 l / Z.of_nat (length l).
Proof.
  intros Hne Hsum. destruct l as [| v l]; [congruence |].
  unfold mean, int, float_of_int, float_of_nat.
  set (s := foldr Z.add 0 (v :: l)) in *.
  simpl length. rewrite Nat2Z.inj_succ.
  replace (Z.succ (Z.of_nat (length l)))
    with (Z.pos (Pos.of_succ_nat (length l))) by lia.
  simpl. rewrite Z.mul_1_r. apply Z.quot_div_nonneg; lia.
Qed.

(** X7.  [send_distance_sensor_message] on an array of [N] non-negative cells:
    it hands the link one DISTANCE_SENSOR message whose current distance is
    the sum of cells 33 to 37 divided by 5, fraction dropped; that value
    lies between any two bounds that hold for all cells, and no other cell
    has a part in it. *)
Theorem forward_distance_is_central_mean (g : globals)
    (link : list mavlink_message) (lo hi : Z) :
  length (g_distances g) = DISTANCES_ARRAY_LEN ->
  0 <= lo ->
  Forall (fun v => lo <= v <= hi) (g_distances g) ->
  exists a b c d e : Z,
    g_distances g !! 33%nat = Some a /\ g_distances g !! 34%nat = Some b /\
    g_distances g !! 35%nat = Some c /\ g_distances g !! 36%nat = Some d /\
    g_distances g !! 37%nat = Some e /\
    send_distance_sensor_message g link
    = link ++ [DISTANCE_SENSOR 0 MIN_DEPTH_CM MAX_DEPTH_CM
                 ((a + b + c + d + e) / 5) 0 0 0 0] /\
    lo <= (a + b + c + d + e) / 5 <= hi.
Proof.
  intros Hlen Hlo Hall. unfold send_distance_sensor_message.
  set (sl := take (38 - 33) (drop 33 (g_distances g))).
  assert (Hsl : length sl = 5%nat).
  { unfold sl. rewrite length_take, length_drop, Hlen. reflexivity. }
  assert (Hk : forall k, (k < 5)%nat -> sl !! k = g_distances g !! (33 + k)%nat).
  { intros k Hk. unfold sl. rewrite lookup_take_lt by (simpl; lia).
    apply lookup_drop. }
  assert (Hin : Forall (fun v => lo <= v <= hi) sl).
  { unfold sl. now apply Forall_take, Forall_drop. }
  destruct sl as [| a [| b [| c [| d [| e [| ? ?]]]]]]; try discriminate.
  exists a, b, c, d, e.
  pose proof (Hk 0%nat ltac:(lia)) as H33.
  pose proof (Hk 1%nat ltac:(lia)) as H34.
  pose proof (Hk 2%nat ltac:(lia)) as H35.
  pose proof (Hk 3%nat ltac:(lia)) as H36.
  pose proof (Hk 4%nat ltac:(lia)) as H37.
  simpl in H33, H34, H35, H36, H37.
  repeat (split; [congruence |]).
  pose proof (sum_bounds lo hi _ Hin) as Hsum.
  simpl length in Hsum. simpl foldr in Hsum.
  rewrite int_mean; [| discriminate | simpl; lia].
  simpl length. simpl foldr.
  replace (a + (b + (c + (d + (e + 0))))) with (a + b + c + d + e) by lia.
  change (Z.of_nat 5) with 5.
  split; [reflexivity |].
  split.
  - apply Z.div_le_lower_bound; lia.
  - apply Z.div_le_upper_bound; lia.
Qed.

Lemma forward_distance_is_central_mean_witness :
  send_distance_sensor_message
    {| g_distances :=
         replicate 33 801 ++ [150; 150; 160; 150; 150] ++ replicate 34 801;
       g_current_time_us := 0 |} []
  = [DISTANCE_SENSOR 0 10 800 152 0 0 0 0].
Proof.
  destruct (forward_distance_is_central_mean
              {| g_distances :=
                   replicate 33 801 ++ [150; 150; 160; 150; 150]
                   ++ replicate 34 801;
                 g_current_time_us := 0 |} [] 150 801)
    as (a & b & c & d & e & Ha & Hb & Hc & Hd & He & Hmsg & _).
  - reflexivity.
  - lia.
  - apply Forall_app. split; [apply Forall_replicate; lia |].
    apply Forall_app. split; [| apply Forall_replicate; lia].
    repeat apply Forall_cons_2; try apply Forall_nil; lia.
  - rewrite Hmsg.
    inversion Ha; inversion Hb; inversion Hc; inversion Hd; inversion He.
    reflexivity.
Defined.

(** ** What the function does not look at *)

(** X6.  Only the centre row counts.  Two non-empty frames of the same shape
    that agree on row [floor(H / 2)] give the same array, whatever the other
    rows hold: an obstacle that does not cross the centre row is not
    seen. *)
Theorem only_the_centre_row_counts (depth_scale : Q)
    (depth_mat depth_mat' : ndarray) (distances : list Z)
    (min_depth_m max_depth_m : Q) :
  ndarray_wf depth_mat -> ndarray_wf depth_mat' ->
  0 < shape0 depth_mat -> 0 < shape1 depth_mat ->
  shape0 depth_mat' = shape0 depth_mat ->
  shape1 depth_mat' = shape1 depth_mat ->
  (forall c, 0 <= c < shape1 depth_mat ->
     getitem depth_mat' (shape0 depth_mat / 2) c
     = getitem depth_mat (shape0 depth_mat / 2) c) ->
  length distances = DISTANCES_ARRAY_LEN ->
  exists out,
    distances_from_depth_image depth_scale depth_mat distances
      min_depth_m max_depth_m = Some out /\
    distances_from_depth_image depth_scale depth_mat' distances
      min_depth_m max_depth_m = Some out.
Proof.
  intros Hwf Hwf' H0 H1 Hs0 Hs1 Hrow Hd.
  destruct (distances_from_depth_image_spec depth_scale depth_mat distances
              min_depth_m max_depth_m Hwf H0 H1 Hd)
    as (out & Hrun & Hl & Hcells).
  destruct (distances_from_depth_image_spec depth_scale depth_mat' distances
              min_depth_m max_depth_m Hwf') as (out' & Hrun' & Hl' & Hcells');
    [lia | lia | exact Hd |].
  exists out. split; [exact Hrun |]. rewrite Hrun'. f_equal.
  apply list_eq. intros i.
  destruct (Nat.lt_ge_cases i DISTANCES_ARRAY_LEN) as [Hi | Hi].
  - destruct (Hcells i Hi) as (raw & Hraw & ->).
    destruct (Hcells' i Hi) as (raw' & Hraw' & ->).
    assert (Heq : sampled_pixel depth_mat' i = sampled_pixel depth_mat i).
    { unfold sampled_pixel.
      rewrite (sample_row_div depth_mat'), (sample_row_div depth_mat) by lia.
      rewrite (sample_col_div depth_mat'), (sample_col_div depth_mat) by lia.
      rewrite Hs0, Hs1. apply Hrow.
      rewrite <- (sample_col_div depth_mat) by lia.
      now apply sample_col_range. }
    rewrite Heq, Hraw in Hraw'. now inversion Hraw'.
  - rewrite (lookup_ge_None_2 out), (lookup_ge_None_2 out') by lia.
    reflexivity.
Qed.

Lemma only_the_centre_row_counts_witness :
  exists out,
    distances_from_depth_image 0.001
      (mk_ndarray 3 2 [0; 0; 1000; 2000; 0; 0])
      distances_init (fst DEPTH_RANGE) (snd DEPTH_RANGE) = Some out /\
    distances_from_depth_image 0.001
      (mk_ndarray 3 2 [9000; 500; 1000; 2000; 300; 65535])
      distances_init (fst DEPTH_RANGE) (snd DEPTH_RANGE) = Some out.
Proof.
  apply (only_the_centre_row_counts 0.001
           (mk_ndarray 3 2 [0; 0; 1000; 2000; 0; 0])
           (mk_ndarray 3 2 [9000; 500; 1000; 2000; 300; 65535])
           distances_init (fst DEPTH_RANGE) (snd DEPTH_RANGE)).
  - repeat split; discriminate.
  - repeat split; discriminate.
  - reflexivity.
  - reflexivity.
  - reflexivity.
  - reflexivity.
  - intros c Hc. simpl in Hc.
    assert (Hcases : c = 0 \/ c = 1) by lia.
    destruct Hcases as [-> | ->]; reflexivity.
  - apply distances_init_length.
Defined.

(** ** What the link is given over a run *)

Lemma distances_init_ok : distances_ok distances_init.
Proof.
  split; [apply distances_init_length |].
  apply Forall_replicate. vm_compute. split; discriminate.
Qed.

(** A pass of the main loop over a non-empty frame re-establishes the
    range of the array, whatever the array held. *)
Lemma main_loop_iteration_ok (depth_scale : Q) (now_us : Z)
    (depth_mat : ndarray) (g : globals) :
  ndarray_wf depth_mat -> 0 < shape0 depth_mat -> 0 < shape1 depth_mat ->
  length (g_distances g) = DISTANCES_ARRAY_LEN ->
  exists out,
    distances_from_depth_image depth_scale depth_mat (g_distances g)
      (fst DEPTH_RANGE) (snd DEPTH_RANGE) = Some out /\
    main_loop_iteration depth_scale now_us depth_mat g
    = Some {| g_distances := out; g_current_time_us := now_us |} /\
    distances_ok out.
Proof.
  intros Hwf H0 H1 Hd.
  destruct (distances_from_depth_image_spec depth_scale depth_mat
              (g_distances g) (fst DEPTH_RANGE) (snd DEPTH_RANGE)
              Hwf H0 H1 Hd) as (out & Hrun & Hl & Hcells).
  exists out. split; [exact Hrun |]. split.
  - unfold main_loop_iteration. now rewrite Hrun.
  - split; [exact Hl |]. apply Forall_lookup_2. intros i v Hv.
    assert (Hi : (i < DISTANCES_ARRAY_LEN)%nat).
    { rewrite <- Hl. apply lookup_lt_is_Some. now exists v. }
    destruct (Hcells i Hi) as (raw & _ & Hcell).
    rewrite Hcell in Hv. inversion Hv; subst v.
    destruct depth_range_ok as (Ha & Hb & Hc).
    apply (sector_value_bounds depth_scale raw _ _ Ha Hb Hc).
Qed.

Lemma central_mean_bounds (d : list Z) (lo hi : Z) :
  length d = DISTANCES_ARRAY_LEN -> 0 <= lo ->
  Forall (fun v => lo <= v <= hi) d ->
  lo <= int (mean (take (38 - 33) (drop 33 d))) <= hi.
Proof.
  intros Hlen Hlo Hall.
  set (sl := take (38 - 33) (drop 33 d)).
  assert (Hsl : length sl = 5%nat).
  { unfold sl. rewrite length_take, length_drop, Hlen. reflexivity. }
  assert (Hin : Forall (fun v => lo <= v <= hi) sl).
  { unfold sl. now apply Forall_take, Forall_drop. }
  pose proof (sum_bounds lo hi sl Hin) as Hsum. rewrite Hsl in Hsum.
  rewrite int_mean; [| intros ->; discriminate | lia].
  rewrite Hsl. change (Z.of_nat 5) with 5 in *. split.
  - apply Z.div_le_lower_bound; lia.
  - apply Z.div_le_upper_bound; lia.
Qed.

Lemma run_job_ok (j : job) (g : globals) (link : list mavlink_message) :
  distances_ok (g_distances g) ->
  exists msg, run_job j g link = link ++ [msg] /\ message_ok msg.
Proof.
  intros [Hl Hall]. destruct j; simpl.
  - eexists. split; [reflexivity |]. simpl. repeat split; assumption.
  - eexists. split; [reflexivity |]. simpl.
    apply central_mean_bounds; [exact Hl | vm_compute; discriminate | exact Hall].
Qed.

(** X8.  Every message is well formed.  Over any sequence of loop passes (with
    or without a depth frame, the frames non-empty) and job firings that
    starts from the initial globals and a silent link, the run completes,
    the link has received exactly one message per firing, every
    OBSTACLE_DISTANCE message carries [N] cells within
    [[MIN_DEPTH_CM, MAX_DEPTH_CM + 1]] together with those two bounds, and
    every DISTANCE_SENSOR message a current distance within the same
    interval. *)
Theorem every_message_is_in_range (depth_scale : Q) (events : list event) :
  Forall event_valid events ->
  exists (g : globals) (sent : list mavlink_message),
    run_events depth_scale events (globals_init, []) = Some (g, sent) /\
    distances_ok (g_distances g) /\
    Forall message_ok sent /\
    length sent = length (List.filter is_tick events).
Proof.
  intros Hvalid.
  enough (Hgen : forall (s : globals * list mavlink_message),
            distances_ok (g_distances (fst s)) -> Forall message_ok (snd s) ->
            exists (g : globals) (sent : list mavlink_message),
              run_events depth_scale events s = Some (g, sent) /\
              distances_ok (g_distances g) /\
              Forall message_ok sent /\
              length sent
              = (length (snd s)
                 + length (List.filter is_tick events))%nat).
  { apply (Hgen (globals_init, [])); [apply distances_init_ok | constructor]. }
  induction Hvalid as [| e es He _ IH]; intros [g sent] Hg Hsent;
    simpl in Hg, Hsent.
  - exists g, sent. simpl. split; [reflexivity |]. split; [exact Hg |].
    split; [exact Hsent | lia].
  - destruct e as [| now_us depth_mat | j];
      cbn [run_events step fst snd List.filter is_tick].
    + exact (IH (g, sent) Hg Hsent).
    + destruct He as (Hwf & H0 & H1).
      destruct (main_loop_iteration_ok depth_scale now_us depth_mat g
                  Hwf H0 H1 (proj1 Hg)) as (out & _ & -> & Hout).
      exact (IH ({| g_distances := out; g_current_time_us := now_us |}, sent)
                Hout Hsent).
    + destruct (run_job_ok j g sent Hg) as (msg & Hmsg & Hok).
      destruct (IH (g, run_job j g sent)) as (g' & sent' & Hrun & H1 & H2 & H3).
      * exact Hg.
      * simpl. rewrite Hmsg. apply Forall_app. split; [exact Hsent |].
        now constructor.
      * exists g', sent'. split; [exact Hrun |]. split; [exact H1 |].
        split; [exact H2 |]. rewrite H3. simpl snd. rewrite Hmsg.
        rewrite length_app. simpl. lia.
Qed.

Lemma every_message_is_in_range_witness :
  exists (g : globals) (sent : list mavlink_message),
    run_events 0.001
      [ev_tick job_obstacle_distance;
       ev_frame 1000 (constant_frame 480 640 2000);
       ev_no_frame;
       ev_tick job_distance_sensor]
      (globals_init, []) = Some (g, sent) /\
    distances_ok (g_distances g) /\
    Forall message_ok sent /\
    length sent = 2%nat.
Proof.
  apply (every_message_is_in_range 0.001
           [ev_tick job_obstacle_distance;
            ev_frame 1000 (constant_frame 480 640 2000);
            ev_no_frame;
            ev_tick job_distance_sensor]).
  repeat apply Forall_cons_2; try apply Forall_nil; try exact I.
  split; [apply constant_frame_wf |]. split; reflexivity.
Defined.

(** X9.  A firing after a completed pass reports that pass.  When a pass over
    a non-empty frame at clock [now_us] is followed by any number of passes
    that got no depth frame and then by a firing of the obstacle-distance
    job, the message carries [now_us] and the array computed from that
    frame: a pass without a frame changes neither. *)
Theorem tick_reports_latest_frame (depth_scale : Q) (now_us : Z)
    (depth_mat : ndarray) (g : globals) (sent : list mavlink_message)
    (k : nat) :
  ndarray_wf depth_mat -> 0 < shape0 depth_mat -> 0 < shape1 depth_mat ->
  length (g_distances g) = DISTANCES_ARRAY_LEN ->
  exists out,
    distances_from_depth_image depth_scale depth_mat (g_distances g)
      (fst DEPTH_RANGE) (snd DEPTH_RANGE) = Some out /\
    run_events depth_scale
      (ev_frame now_us depth_mat
       :: replicate k ev_no_frame ++ [ev_tick job_obstacle_distance])
      (g, sent)
    = Some ({| g_distances := out; g_current_time_us := now_us |},
            sent ++ [OBSTACLE_DISTANCE now_us 0 out 0 MIN_DEPTH_CM
                       MAX_DEPTH_CM INCREMENT_F ANGLE_OFFSET 12]).
Proof.
  intros Hwf H0 H1 Hd.
  destruct (main_loop_iteration_ok depth_scale now_us depth_mat g
              Hwf H0 H1 Hd) as (out & Hrun & Hpass & _).
  exists out. split; [exact Hrun |].
  cbn [run_events step fst snd]. rewrite Hpass.
  induction k as [| k IH]; [reflexivity |].
  cbn [replicate app run_events step]. exact IH.
Qed.

Lemma tick_reports_latest_frame_witness :
  run_events 0.001
    [ev_frame 1000 (constant_frame 480 640 2000); ev_no_frame;
     ev_tick job_obstacle_distance]
    (globals_init, [])
  = Some ({| g_distances := replicate 72 200; g_current_time_us := 1000 |},
          [OBSTACLE_DISTANCE 1000 0 (replicate 72 200) 0 10 800
             INCREMENT_F ANGLE_OFFSET 12]).
Proof.
  destruct (tick_reports_latest_frame 0.001 1000
              (constant_frame 480 640 2000) globals_init [] 1)
    as (out & Hrun & Hev).
  - apply constant_frame_wf.
  - reflexivity.
  - reflexivity.
  - apply distances_init_length.
  - simpl in Hrun. rewrite constant_frame_run in Hrun;
      [| lia | lia | apply distances_init_length].
    inversion Hrun; subst out. exact Hev.
Defined.

(** ** Connecting, defaults, start-up and shutdown *)

Lemma connect_loop_failures {V : Type} (k : nat)
    (rest : list (option V)) (log : list string) (flag : bool) :
  connect_loop (replicate k None ++ rest) (mk_connection None flag log)
  = connect_loop rest
      (mk_connection None (if k is O then flag else false)
         (log ++ replicate k "Connection error! Retrying..."%string)).
Proof.
  revert log flag. induction k as [| k IH]; intros log flag.
  - simpl. now rewrite app_nil_r.
  - cbn [replicate app connect_loop]. unfold vehicle_connect. simpl.
    rewrite IH. rewrite <- app_assoc. simpl.
    destruct k; reflexivity.
Qed.

(** X10.  The connection loop has no retry bound and ends connected.  From the
    initial globals, [k] failed attempts followed by a successful one end
    the loop with that handle, the flag set, and [k] lines "Connection
    error! Retrying..." printed; attempts that all fail never end it; and
    whenever the loop ends, the flag is set and a handle is held. *)
Theorem connect_loop_retries_until_connected {V : Type} (k : nat) (v : V)
    (rest : list (option V)) :
  connect_loop (replicate k None ++ Some v :: rest) (connection_init V)
  = Some (mk_connection (Some v) true
            (replicate k "Connection error! Retrying..."%string)) /\
  connect_loop (replicate k (@None V)) (connection_init V) = None /\
  (forall (attempts : list (option V)) (c c' : connection V),
     connect_loop attempts c = Some c' ->
     cx_is_vehicle_connected c' = true /\ is_Some (cx_vehicle c')).
Proof.
  split; [| split].
  - unfold connection_init. rewrite connect_loop_failures. reflexivity.
  - unfold connection_init.
    rewrite <- (app_nil_r (replicate k None)), connect_loop_failures.
    reflexivity.
  - induction attempts as [| a attempts IH]; intros c c' Hrun;
      [discriminate |].
    cbn [connect_loop] in Hrun. unfold vehicle_connect in Hrun.
    destruct a as [h |]; simpl in Hrun.
    + inversion Hrun; subst c'. simpl. split; [reflexivity | now exists h].
    + destruct (cx_vehicle c) as [h |] eqn:Hc.
      * inversion Hrun; subst c'. simpl. split; [reflexivity | now exists h].
      * now apply IH in Hrun.
Qed.

(** X11.  The defaults replace every missing, empty or zero value.  After lines
    142-163 the connection string is never empty and neither the baud rate
    nor the message rate is zero, so the interval [1 / rate] of lines 395
    and 398 is a true inverse; a non-empty string and a non-zero number
    given on the command line are kept as they are. *)
Theorem defaults_replace_falsy_values (args : arguments) :
  connection_string (use_defaults args) <> ""%string /\
  ~ (connection_baudrate (use_defaults args) == 0)%Q /\
  ~ (obstacle_distance_msg_hz (use_defaults args) == 0)%Q /\
  (1 / obstacle_distance_msg_hz (use_defaults args)
   * obstacle_distance_msg_hz (use_defaults args) == 1)%Q /\
  (forall s, args_connect args = Some s -> s <> ""%string ->
     connection_string (use_defaults args) = s) /\
  (forall q, args_baudrate args = Some q -> ~ (q == 0)%Q ->
     connection_baudrate (use_defaults args) = q) /\
  (forall q, args_obstacle_distance_msg_hz args = Some q -> ~ (q == 0)%Q ->
     obstacle_distance_msg_hz (use_defaults args) = q).
Proof.
  assert (Hf : forall (x : option Q) (d : Q), ~ (d == 0)%Q ->
            ~ ((if not_float x then d else default d x) == 0)%Q).
  { intros [q |] d Hd; simpl; [| exact Hd].
    destruct (Qeq_bool q 0) eqn:E; [exact Hd |].
    now apply Qeq_bool_neq. }
  assert (Hk : forall (x : option Q) (d q : Q), x = Some q -> ~ (q == 0)%Q ->
            (if not_float x then d else default d x) = q).
  { intros x d q -> Hq. simpl.
    destruct (Qeq_bool q 0) eqn:E; [| reflexivity].
    now apply Qeq_bool_iff in E. }
  assert (Hhz : ~ (obstacle_distance_msg_hz (use_defaults args) == 0)%Q)
    by (apply Hf; discriminate).
  split.
  { simpl. destruct (args_connect args) as [s |]; simpl; [| discriminate].
    destruct (String.eqb s "") eqn:E; [discriminate |].
    now apply String.eqb_neq. }
  split; [apply Hf; discriminate |].
  split; [exact Hhz |].
  split.
  { unfold Qdiv. rewrite Qmult_1_l, Qmult_comm. now apply Qmult_inv_r. }
  split.
  { intros s Hs Hne. simpl. rewrite Hs. simpl.
    apply String.eqb_neq in Hne. now rewrite Hne. }
  split; intros q Hq Hne; simpl; now apply Hk.
Qed.

(** X12.  At most one job is scheduled, and the process goes on exactly when
    one is.  Whatever the two flags are, the scheduler is started and the
    ground station gets one status text; the obstacle-distance job alone is
    scheduled when its flag is set (the other flag is then not looked at),
    the distance-sensor job alone when only its flag is set, each at the
    interval [1 / rate]; with no flag set no job is scheduled and the
    process exits. *)
Theorem at_most_one_job_is_scheduled (enable_msg_obstacle_distance
    enable_msg_distance_sensor : bool) (hz : Q)
    (sent : list mavlink_message) (printed : list string) :
  let p := start_publishing enable_msg_obstacle_distance
             enable_msg_distance_sensor hz (process_connected sent printed) in
  sched_running p = true /\
  (exists text, link p = sent ++ [STATUSTEXT 6 text]) /\
  sched_jobs p
  = (if enable_msg_obstacle_distance
     then [(job_obstacle_distance, (1 / hz)%Q)]
     else if enable_msg_distance_sensor
          then [(job_distance_sensor, (1 / hz)%Q)]
          else []) /\
  exit_status p
  = (if enable_msg_obstacle_distance || enable_msg_distance_sensor
     then None else Some 0) /\
  pipe_streaming p = (enable_msg_obstacle_distance || enable_msg_distance_sensor) /\
  vehicle_open p = (enable_msg_obstacle_distance || enable_msg_distance_sensor).
Proof.
  destruct enable_msg_obstacle_distance, enable_msg_distance_sensor; simpl;
    (split; [reflexivity |]); (split; [eexists; reflexivity |]);
    repeat split.
Qed.

(** X13.  Every way out of the main loop releases the camera and the vehicle
    and exits with status 0.  The scheduler is left as it was; the ground
    station is told on the operator's interrupt and on an exception outside
    class [Exception] (if the vehicle is connected), and is told nothing on
    an exception of class [Exception], whose text goes to the console
    only. *)
Theorem leaving_the_loop_closes_everything (why : loop_exit) (p : process) :
  let p' := leave_main_loop why p in
  pipe_streaming p' = false /\
  vehicle_open p' = false /\
  exit_status p' = Some 0 /\
  sched_running p' = sched_running p /\
  sched_jobs p' = sched_jobs p /\
  link p'
  = link p ++
    (if is_vehicle_connected p then
       match why with
       | exit_KeyboardInterrupt => [STATUSTEXT 6 "D4xx: Closing the script..."]
       | exit_Exception _ => []
       | exit_other => [STATUSTEXT 6 "D4xx: ERROR: Depth camera disconnected"]
       end
     else []) /\
  (forall e, why = exit_Exception e ->
     console p'
     = console p ++ [e; "INFO: Realsense pipe and vehicle object closed."%string]).
Proof.
  destruct why as [| e |]; unfold leave_main_loop, send_msg_to_gcs;
    destruct (is_vehicle_connected p) eqn:Hc; simpl;
    repeat (split; [(reflexivity || (now rewrite app_nil_r)) |]);
    intros e' He; inversion He; subst;
    now rewrite <- app_assoc.
Qed.

(** ** The filter chain *)

(** X14.  The chain applies exactly the enabled rows, in list order: rows whose
    flag is off can be deleted without changing the result, a chain with
    every flag off returns the frame it was given, and a chain split in two
    is the second half applied to the result of the first. *)
Theorem apply_filters_runs_enabled_rows_in_order {frame : Type}
    (filters1 filters2 : list (filter_spec frame)) (f : frame) :
  apply_filters (filters1 ++ filters2) f
  = apply_filters filters2 (apply_filters filters1 f) /\
  apply_filters filters1 f
  = apply_filters (List.filter filter_enabled filters1) f /\
  apply_filters filters1 f
  = fold_left (fun acc row => snd row acc)
      (List.filter filter_enabled filters1) f /\
  (List.filter filter_enabled filters1 = [] -> apply_filters filters1 f = f).
Proof.
  assert (Happ : forall (l1 l2 : list (filter_spec frame)) x,
            apply_filters (l1 ++ l2) x
            = apply_filters l2 (apply_filters l1 x)).
  { induction l1 as [| [[en name] process] l1 IH]; intros l2 x;
      [reflexivity |]. simpl. apply IH. }
  assert (Hfold : forall (l : list (filter_spec frame)) x,
            apply_filters l x
            = fold_left (fun acc row => snd row acc)
                (List.filter filter_enabled l) x).
  { induction l as [| [[en name] process] l IH]; intros x; [reflexivity |].
    simpl. unfold filter_enabled at 1. simpl. destruct en; simpl; apply IH. }
  assert (Hfold' : forall (l : list (filter_spec frame)) x,
            Forall (fun row => filter_enabled row = true) l ->
            apply_filters l x = fold_left (fun acc row => snd row acc) l x).
  { induction l as [| [[en name] process] l IH]; intros x Hall;
      [reflexivity |].
    inversion Hall as [| ? ? Hen Hrest]; subst.
    unfold filter_enabled in Hen. simpl in Hen. subst en. simpl.
    now apply IH. }
  split; [apply Happ |]. split; [| split].
  - rewrite Hfold. symmetry. apply Hfold'.
    apply List.Forall_forall. intros row Hin.
    now apply List.filter_In in Hin.
  - apply Hfold.
  - intros Hnone. rewrite Hfold, Hnone. reflexivity.
Qed.

(** ** The debug flag and the status texts *)

(** X15.  The colour stream is never requested.  Whatever [debug_enable] is
    when the module is loaded, lines 172-177 turn it into the integer 0 or
    1, which is not [True], so [realsense_connect] enables the depth stream
    alone; the debug display of the main loop is on exactly when the flag was
    truthy, and the colorizer exists exactly when it was [True] itself. *)
Theorem color_stream_is_never_enabled (debug_enable : pyvalue) :
  enabled_streams (normalise_debug_enable debug_enable) = [stream_depth] /\
  debug_display (normalise_debug_enable debug_enable) = truthy debug_enable /\
  enabled_streams (py_bool true) = [stream_depth; stream_color] /\
  (colorizer_created debug_enable = false ->
   truthy debug_enable = true ->
   exists n, debug_enable = py_int n /\ n <> 0).
Proof.
  split; [| split; [| split]].
  - unfold normalise_debug_enable. now destruct (truthy debug_enable).
  - unfold normalise_debug_enable, debug_display.
    now destruct (truthy debug_enable).
  - reflexivity.
  - destruct debug_enable as [[|] | n]; simpl; try discriminate.
    intros _ Hn. exists n. split; [reflexivity |].
    apply negb_true_iff in Hn. now apply Z.eqb_neq.
Qed.

Lemma length_append (s t : string) :
  String.length (String.append s t)
  = (String.length s + String.length t)%nat.
Proof. induction s as [| a s IH]; simpl; [reflexivity | now rewrite IH]. Qed.

(** X16.  The text on the wire is six characters longer than the text given.
    With the vehicle connected [send_msg_to_gcs] sends one STATUSTEXT of
    severity 6 whose text is "D4xx: " followed by the argument, so it fits
    the 50 characters of the field exactly when the argument has at most 44;
    of the texts the script passes, all fit but "Nothing to do. Check
    params to enable something", which has 47. *)
Theorem status_text_length (text_to_be_sent : string) (p : process) :
  is_vehicle_connected p = true ->
  exists text,
    link (send_msg_to_gcs text_to_be_sent p) = link p ++ [STATUSTEXT 6 text] /\
    String.length text = (6 + String.length text_to_be_sent)%nat /\
    ((String.length text <= STATUSTEXT_LEN)%nat
     <-> (String.length text_to_be_sent <= 44)%nat) /\
    List.filter
      (fun s => (STATUSTEXT_LEN <? 6 + String.length s)%nat) status_texts
    = ["Nothing to do. Check params to enable something"%string].
Proof.
  intros Hc. unfold send_msg_to_gcs. rewrite Hc. cbn [link].
  eexists. split; [reflexivity |].
  rewrite length_append. unfold STATUSTEXT_LEN.
  split; [reflexivity |]. split; [simpl; lia | reflexivity].
Qed.

Lemma status_text_length_witness :
  exists text,
    link (send_msg_to_gcs "Nothing to do. Check params to enable something"
            (process_connected [] []))
    = [] ++ [STATUSTEXT 6 text] /\
    String.length text = 53%nat /\
    ((String.length text <= STATUSTEXT_LEN)%nat <-> (47 <= 44)%nat) /\
    List.filter
      (fun s => (STATUSTEXT_LEN <? 6 + String.length s)%nat) status_texts
    = ["Nothing to do. Check params to enable something"%string].
Proof.
  apply (status_text_length "Nothing to do. Check params to enable something"
           (process_connected [] [])).
  reflexivity.
Defined.

(** ** The conversion on IEEE doubles, for every raw value *)

Lemma all_raw_spec (depth_scale : PrimFloat.float) (ok : Z -> Z -> bool) :
  Binary64.all_raw depth_scale ok = true ->
  forall raw, 0 <= raw < 65536 ->
    ok raw (Binary64.sector_value depth_scale raw
              (fst Binary64.DEPTH_RANGE) (snd Binary64.DEPTH_RANGE)) = true.
Proof.
  unfold Binary64.all_raw.
  set (F := fun st : bool * Z =>
              (fst st && ok (snd st)
                           (Binary64.sector_value depth_scale (snd st)
                              (fst Binary64.DEPTH_RANGE)
                              (snd Binary64.DEPTH_RANGE)),
               snd st + 1)).
  change (Z.iter 65536 F (true, 0)) with (Pos.iter F (true, 0) 65536).
  rewrite Pos2Nat.inj_iter.
  assert (Hinv : forall n : nat,
            snd (Nat.iter n F (true, 0)) = Z.of_nat n /\
            (fst (Nat.iter n F (true, 0)) = true ->
             forall raw, 0 <= raw < Z.of_nat n ->
               ok raw (Binary64.sector_value depth_scale raw
                         (fst Binary64.DEPTH_RANGE)
                         (snd Binary64.DEPTH_RANGE)) = true)).
  { induction n as [| n [IHs IHf]].
    - simpl. split; [reflexivity | intros _ raw Hraw; lia].
    - rewrite Nat.iter_succ. unfold F at 1. cbn [fst snd].
      split; [rewrite IHs; lia |].
      intros Hb raw Hraw. apply andb_true_iff in Hb. destruct Hb as [Hb Hok].
      rewrite IHs in Hok.
      destruct (Z.eq_dec raw (Z.of_nat n)) as [-> | Hne]; [exact Hok |].
      apply IHf; [exact Hb | lia]. }
  intros Hall raw Hraw.
  destruct (Hinv (Pos.to_nat 65536)) as [_ Hf].
  apply Hf; [exact Hall |]. lia.
Qed.

(** X17.  On doubles the array stays in range.  With the depth unit of a D4xx
    camera, 0.001 as a double or as the widened single-precision value the
    driver reports, and the range of the script, the conversion computed on
    IEEE doubles stores every 16-bit raw value as a number of centimetres
    within [[MIN_DEPTH_CM, MAX_DEPTH_CM + 1]] = [[10, 801]]. *)
Theorem binary64_cells_within_range (raw : Z) :
  0 <= raw < 65536 ->
  Binary64.MIN_DEPTH_CM
  <= Binary64.sector_value Binary64.depth_unit_double raw
       (fst Binary64.DEPTH_RANGE) (snd Binary64.DEPTH_RANGE)
  <= Binary64.MAX_DEPTH_CM + 1 /\
  Binary64.MIN_DEPTH_CM
  <= Binary64.sector_value Binary64.depth_unit_single raw
       (fst Binary64.DEPTH_RANGE) (snd Binary64.DEPTH_RANGE)
  <= Binary64.MAX_DEPTH_CM + 1.
Proof.
  intros Hraw.
  destruct binary64_constants as (-> & -> & _).
  destruct binary64_range as [Hd Hs].
  pose proof (all_raw_spec _ _ Hd raw Hraw) as H1.
  pose proof (all_raw_spec _ _ Hs raw Hraw) as H2.
  cbv beta in H1, H2.
  apply andb_true_iff in H1, H2. rewrite !Z.leb_le in H1, H2. lia.
Qed.

Lemma binary64_cells_within_range_witness :
  Binary64.MIN_DEPTH_CM
  <= Binary64.sector_value Binary64.depth_unit_double 2000
       (fst Binary64.DEPTH_RANGE) (snd Binary64.DEPTH_RANGE)
  <= Binary64.MAX_DEPTH_CM + 1 /\
  Binary64.MIN_DEPTH_CM
  <= Binary64.sector_value Binary64.depth_unit_single 2000
       (fst Binary64.DEPTH_RANGE) (snd Binary64.DEPTH_RANGE)
  <= Binary64.MAX_DEPTH_CM + 1.
Proof.
  apply (binary64_cells_within_range 2000). lia.
Defined.

Lemma binary64_close_to_rational_computed :
  Binary64.all_raw Binary64.depth_unit_double
    (fun raw v =>
       let q := sector_value 0.001 raw (fst DEPTH_RANGE) (snd DEPTH_RANGE) in
       (v =? q) || (v =? q - 1)) = true.
Proof. vm_compute. reflexivity. Qed.

(** X18.  The rational model is off by at most one centimetre.  At depth scale
    0.001 and the range of the script, for every 16-bit raw value the cell
    computed on IEEE doubles is the cell of the exact-arithmetic model or one
    less (the double product can fall just below an integer the exact product
    reaches). *)
Theorem binary64_within_one_of_rational (raw : Z) :
  0 <= raw < 65536 ->
  Binary64.sector_value Binary64.depth_unit_double raw
    (fst Binary64.DEPTH_RANGE) (snd Binary64.DEPTH_RANGE)
  = sector_value 0.001 raw (fst DEPTH_RANGE) (snd DEPTH_RANGE) \/
  Binary64.sector_value Binary64.depth_unit_double raw
    (fst Binary64.DEPTH_RANGE) (snd Binary64.DEPTH_RANGE)
  = sector_value 0.001 raw (fst DEPTH_RANGE) (snd DEPTH_RANGE) - 1.
Proof.
  intros Hraw.
  pose proof (all_raw_spec _ _ binary64_close_to_rational_computed raw Hraw)
    as H.
  cbv beta zeta in H. apply orb_true_iff in H.
  rewrite !Z.eqb_eq in H. exact H.
Qed.

Lemma binary64_within_one_of_rational_witness :
  Binary64.sector_value Binary64.depth_unit_double 290
    (fst Binary64.DEPTH_RANGE) (snd Binary64.DEPTH_RANGE)
  = sector_value 0.001 290 (fst DEPTH_RANGE) (snd DEPTH_RANGE) \/
  Binary64.sector_value Binary64.depth_unit_double 290
    (fst Binary64.DEPTH_RANGE) (snd Binary64.DEPTH_RANGE)
  = sector_value 0.001 290 (fst DEPTH_RANGE) (snd DEPTH_RANGE) - 1.
Proof.
  apply (binary64_within_one_of_rational 290). lia.
Defined.
